(** * Strange Attractor (EuroPi contrib script): model and properties

    Shallow embedding of [software/contrib/strange_attractor.py].

    Numbers.  The script computes with Python floats and ints.  Two models
    of the float code are given.  In the first, which carries the controller
    and the properties that do not depend on rounding (which branch is taken,
    which attribute is assigned, in which order, what is compared with what),
    a float is an exact rational ([Q]) and equalities between computed values
    are stated with [==]; there are no infinities and no NaN in it, so the
    [OverflowError] and [ValueError] that [floor] raises on them have no
    counterpart.  The second, module [F64], repeats the attractor classes
    and the speed mapping on binary64 floats with the IEEE 754 operations; it
    is evaluated wherever the last digits of a result matter.  Ints
    ([range], [threshold], tick counts) are [Z].  Python raises
    [ZeroDivisionError] on a division by a zero divisor and [IndexError] on a
    list access out of range; both are kept as results of the operations
    that can raise them.

    Objects.  [self.attractors] is a list of mutable objects and [self.a] is
    a second reference to the element at [self.selected_attractor]; the list
    is the store and [self.a] is read and written through it.  The objects
    of the list are distinct, as [get_attractors] builds them. *)

From Stdlib Require Import ZArith QArith Qround Qabs Lia Lqa String Floats.
From stdpp Require Import base list.

#[local] Set Warnings "-inexact-float".

(** ** Exceptions *)

Inductive exn : Type := ZeroDivisionError | IndexError.

Inductive result (A : Type) : Type :=
| Ok (v : A)
| Raise (e : exn).
Arguments Ok {A} v.
Arguments Raise {A} e.

Definition rbind {A B : Type} (r : result A) (k : A -> result B) : result B :=
  match r with
  | Ok v => k v
  | Raise e => Raise e
  end.

Notation "'do' v <- r ; k" := (rbind r (fun v => k))
  (at level 10, v name, r at level 100, k at level 200).

(** ** Python arithmetic on the rational model *)

(** [a / b] on floats: raises when the divisor is zero. *)
Definition py_div (n d : Q) : result Q :=
  if Qeq_bool d 0 then Raise ZeroDivisionError else Ok (n / d)%Q.

(** [a > b] and [a < b]. *)
Definition Qltb (p q : Q) : bool := negb (Qle_bool q p).

(** [max(a, b)] and [min(a, b)] keep the first argument on a tie. *)
Definition py_max (p q : Q) : Q := if Qltb p q then q else p.
Definition py_min (p q : Q) : Q := if Qltb q p then q else p.

(** ** The attractors *)

Module Attractor.

Local Open Scope Q_scope.

(** The subclass of an object together with the parameters its
    constructor stores; [Base] is the class [Attractor] itself, whose
    [step] does nothing. *)
Inductive family : Type :=
| Base
| Lorenz (s r b : Q)
| PanXuZhou (a b c : Q)
| Rossler (a b c : Q)
| Rikitake (a mu : Q).

Record t : Type := mk {
  initial_state : Q * Q * Q;
  x : Q;
  y : Q;
  z : Q;
  dt : Q;
  name : string;
  x_min : Q;
  y_min : Q;
  z_min : Q;
  x_max : Q;
  y_max : Q;
  z_max : Q;
  x_range : Q;
  y_range : Q;
  z_range : Q;
  params : family
}.

(** Attribute assignments [self.f = v]. *)
Definition set_x (v : Q) (o : t) : t :=
  mk (initial_state o) v (y o) (z o) (dt o) (name o) (x_min o) (y_min o) (z_min o)
     (x_max o) (y_max o) (z_max o) (x_range o) (y_range o) (z_range o) (params o).
Definition set_y (v : Q) (o : t) : t :=
  mk (initial_state o) (x o) v (z o) (dt o) (name o) (x_min o) (y_min o) (z_min o)
     (x_max o) (y_max o) (z_max o) (x_range o) (y_range o) (z_range o) (params o).
Definition set_z (v : Q) (o : t) : t :=
  mk (initial_state o) (x o) (y o) v (dt o) (name o) (x_min o) (y_min o) (z_min o)
     (x_max o) (y_max o) (z_max o) (x_range o) (y_range o) (z_range o) (params o).
Definition set_x_min (v : Q) (o : t) : t :=
  mk (initial_state o) (x o) (y o) (z o) (dt o) (name o) v (y_min o) (z_min o)
     (x_max o) (y_max o) (z_max o) (x_range o) (y_range o) (z_range o) (params o).
Definition set_y_min (v : Q) (o : t) : t :=
  mk (initial_state o) (x o) (y o) (z o) (dt o) (name o) (x_min o) v (z_min o)
     (x_max o) (y_max o) (z_max o) (x_range o) (y_range o) (z_range o) (params o).
Definition set_z_min (v : Q) (o : t) : t :=
  mk (initial_state o) (x o) (y o) (z o) (dt o) (name o) (x_min o) (y_min o) v
     (x_max o) (y_max o) (z_max o) (x_range o) (y_range o) (z_range o) (params o).
Definition set_x_max (v : Q) (o : t) : t :=
  mk (initial_state o) (x o) (y o) (z o) (dt o) (name o) (x_min o) (y_min o) (z_min o)
     v (y_max o) (z_max o) (x_range o) (y_range o) (z_range o) (params o).
Definition set_y_max (v : Q) (o : t) : t :=
  mk (initial_state o) (x o) (y o) (z o) (dt o) (name o) (x_min o) (y_min o) (z_min o)
     (x_max o) v (z_max o) (x_range o) (y_range o) (z_range o) (params o).
Definition set_z_max (v : Q) (o : t) : t :=
  mk (initial_state o) (x o) (y o) (z o) (dt o) (name o) (x_min o) (y_min o) (z_min o)
     (x_max o) (y_max o) v (x_range o) (y_range o) (z_range o) (params o).
Definition set_x_range (v : Q) (o : t) : t :=
  mk (initial_state o) (x o) (y o) (z o) (dt o) (name o) (x_min o) (y_min o) (z_min o)
     (x_max o) (y_max o) (z_max o) v (y_range o) (z_range o) (params o).
Definition set_y_range (v : Q) (o : t) : t :=
  mk (initial_state o) (x o) (y o) (z o) (dt o) (name o) (x_min o) (y_min o) (z_min o)
     (x_max o) (y_max o) (z_max o) (x_range o) v (z_range o) (params o).
Definition set_z_range (v : Q) (o : t) : t :=
  mk (initial_state o) (x o) (y o) (z o) (dt o) (name o) (x_min o) (y_min o) (z_min o)
     (x_max o) (y_max o) (z_max o) (x_range o) (y_range o) v (params o).

(** [Attractor.__init__(self, point, dt, name)], with the subclass
    constructor's parameter assignments folded in as [fam]. *)
Definition init (point : Q * Q * Q) (dt : Q) (name : string) (fam : family) : t :=
  let '(px, py, pz) := point in
  {| initial_state := point;
     x := px; y := py; z := pz;
     dt := dt;
     name := name;
     x_min := px; y_min := py; z_min := pz;
     x_max := px; y_max := py; z_max := pz;
     x_range := 100; y_range := 100; z_range := 100;
     params := fam |}.

(** The four subclass constructors. *)
Definition new_Lorenz (point : Q * Q * Q) (prm : Q * Q * Q) (dt : Q) : t :=
  let '(s, r, b) := prm in init point dt "Lorenz" (Lorenz s r b).
Definition new_PanXuZhou (point : Q * Q * Q) (prm : Q * Q * Q) (dt : Q) : t :=
  let '(a, b, c) := prm in init point dt "Pan-Xu-Zhou" (PanXuZhou a b c).
Definition new_Rossler (point : Q * Q * Q) (prm : Q * Q * Q) (dt : Q) : t :=
  let '(a, b, c) := prm in init point dt "Rossler" (Rossler a b c).
Definition new_Rikitake (point : Q * Q * Q) (prm : Q * Q) (dt : Q) : t :=
  let '(a, mu) := prm in init point dt "Rikitake" (Rikitake a mu).

(** The constructors called with their default arguments. *)
Definition default_Lorenz : t := new_Lorenz (0, 1, 1.05) (10, 28, 2.667) 0.01.
Definition default_PanXuZhou : t := new_PanXuZhou (1, 1, 1) (10, 2.667, 16) 0.01.
Definition default_Rossler : t := new_Rossler (0.1, 0, -0.1) (0.13, 0.2, 6.5) 0.01.
Definition default_Rikitake : t := new_Rikitake (0.1, 0, -0.1) (5, 2) 0.01.

(** [step(self)]: the three derivatives are bound to locals first, then
    the three attributes are assigned one after the other. *)
Definition step (o : t) : t :=
  match params o with
  | Base => o
  | Lorenz s r b =>
      let x_dot := s * (y o - x o) in
      let y_dot := r * x o - y o - x o * z o in
      let z_dot := x o * y o - b * z o in
      let o := set_x (x o + x_dot * dt o) o in
      let o := set_y (y o + y_dot * dt o) o in
      set_z (z o + z_dot * dt o) o
  | PanXuZhou a b c =>
      let x_dot := a * (y o - x o) in
      let y_dot := c * x o - x o * z o in
      let z_dot := x o * y o - b * z o in
      let o := set_x (x o + x_dot * dt o) o in
      let o := set_y (y o + y_dot * dt o) o in
      set_z (z o + z_dot * dt o) o
  | Rossler a b c =>
      let x_dot := - (y o + z o) in
      let y_dot := x o + a * y o in
      let z_dot := b + z o * (x o - c) in
      let o := set_x (x o + x_dot * dt o) o in
      let o := set_y (y o + y_dot * dt o) o in
      set_z (z o + z_dot * dt o) o
  | Rikitake a mu =>
      let x_dot := - (mu * x o) + (z o * y o) in
      let y_dot := - (mu * y o) + x o * (z o - a) in
      let z_dot := 1 - (x o * y o) in
      let o := set_x (x o + x_dot * dt o) o in
      let o := set_y (y o + y_dot * dt o) o in
      set_z (z o + z_dot * dt o) o
  end.

(** One pass through the body of the loop of [estimate_ranges]. *)
Definition estimate_body (o : t) : t :=
  let o := step o in
  let o := set_x_max (py_max (x o) (x_max o)) o in
  let o := set_y_max (py_max (y o) (y_max o)) o in
  let o := set_z_max (py_max (z o) (z_max o)) o in
  let o := set_x_min (py_min (x o) (x_min o)) o in
  let o := set_y_min (py_min (y o) (y_min o)) o in
  set_z_min (py_min (z o) (z_min o)) o.

(** [for i in range(steps): ...] *)
Fixpoint estimate_loop (steps : nat) (o : t) : t :=
  match steps with
  | O => o
  | S n => estimate_loop n (estimate_body o)
  end.

(** [estimate_ranges(self, steps)] *)
Definition estimate_ranges (steps : nat) (o : t) : t :=
  let o := estimate_loop steps o in
  let o := set_x_range (x_max o - x_min o) o in
  let o := set_y_range (y_max o - y_min o) o in
  let o := set_z_range (z_max o - z_min o) o in
  let o := set_x (fst (fst (initial_state o))) o in
  let o := set_y (snd (fst (initial_state o))) o in
  set_z (snd (initial_state o)) o.

Definition x_scaled (o : t) : result Q := py_div (100 * (x o - x_min o)) (x_range o).
Definition y_scaled (o : t) : result Q := py_div (100 * (y o - y_min o)) (y_range o).
Definition z_scaled (o : t) : result Q := py_div (100 * (z o - z_min o)) (z_range o).

End Attractor.

(** [get_attractors()] *)
Definition get_attractors : list Attractor.t :=
  [Attractor.default_Lorenz; Attractor.default_PanXuZhou;
   Attractor.default_Rikitake; Attractor.default_Rossler].

(** ** The same numeric code on binary64 floats

    The attractor classes and the speed mapping once more, with every
    attribute a binary64 float and every operation the IEEE 754 operation
    (round to nearest, ties to even) that CPython applies to a [float].  An
    [int] operand of a mixed operation is converted first, which is exact for
    the constants of the source.  [a / b] raises when [b == 0] (either sign);
    comparisons with NaN are false.  This model is evaluated where the
    rounding of a result matters. *)

Module F64.

Local Open Scope float_scope.

Definition py_div (n d : float) : result float :=
  if d =? 0 then Raise ZeroDivisionError else Ok (n / d).

Definition py_max (p q : float) : float := if p <? q then q else p.
Definition py_min (p q : float) : float := if q <? p then q else p.



Inductive family : Type :=
| Base
| Lorenz (s r b : float)
| PanXuZhou (a b c : float)
| Rossler (a b c : float)
| Rikitake (a mu : float).

Record t : Type := mk {
  initial_state : float * float * float;
  x : float;
  y : float;
  z : float;
  dt : float;
  name : string;
  x_min : float;
  y_min : float;
  z_min : float;
  x_max : float;
  y_max : float;
  z_max : float;
  x_range : float;
  y_range : float;
  z_range : float;
  params : family
}.

Definition set_x (v : float) (o : t) : t :=
  mk (initial_state o) v (y o) (z o) (dt o)
     (name o) (x_min o) (y_min o) (z_min o) (x_max o) (y_max o) (z_max o) (x_range o) (y_range o) (z_range o) (params o).
Definition set_y (v : float) (o : t) : t :=
  mk (initial_state o) (x o) v (z o) (dt o)
     (name o) (x_min o) (y_min o) (z_min o) (x_max o) (y_max o) (z_max o) (x_range o) (y_range o) (z_range o) (params o).
Definition set_z (v : float) (o : t) : t :=
  mk (initial_state o) (x o) (y o) v (dt o)
     (name o) (x_min o) (y_min o) (z_min o) (x_max o) (y_max o) (z_max o) (x_range o) (y_range o) (z_range o) (params o).
Definition set_x_min (v : float) (o : t) : t :=
  mk (initial_state o) (x o) (y o) (z o) (dt
     o) (name o) v (y_min o) (z_min o) (x_max o) (y_max o) (z_max o) (x_range o) (y_range o) (z_range o) (params o).
Definition set_y_min (v : float) (o : t) : t :=
  mk (initial_state o) (x o) (y o) (z o) (dt
     o) (name o) (x_min o) v (z_min o) (x_max o) (y_max o) (z_max o) (x_range o) (y_range o) (z_range o) (params o).
Definition set_z_min (v : float) (o : t) : t :=
  mk (initial_state o) (x o) (y o) (z o) (dt
     o) (name o) (x_min o) (y_min o) v (x_max o) (y_max o) (z_max o) (x_range o) (y_range o) (z_range o) (params o).
Definition set_x_max (v : float) (o : t) : t :=
  mk (initial_state o) (x o) (y o) (z o) (dt
     o) (name o) (x_min o) (y_min o) (z_min o) v (y_max o) (z_max o) (x_range o) (y_range o) (z_range o) (params o).
Definition set_y_max (v : float) (o : t) : t :=
  mk (initial_state o) (x o) (y o) (z o) (dt
     o) (name o) (x_min o) (y_min o) (z_min o) (x_max o) v (z_max o) (x_range o) (y_range o) (z_range o) (params o).
Definition set_z_max (v : float) (o : t) : t :=
  mk (initial_state o) (x o) (y o) (z o) (dt
     o) (name o) (x_min o) (y_min o) (z_min o) (x_max o) (y_max o) v (x_range o) (y_range o) (z_range o) (params o).
Definition set_x_range (v : float) (o : t) : t :=
  mk (initial_state o) (x o) (y o) (z o) (dt
     o) (name o) (x_min o) (y_min o) (z_min o) (x_max o) (y_max o) (z_max o) v (y_range o) (z_range o) (params o).
Definition set_y_range (v : float) (o : t) : t :=
  mk (initial_state o) (x o) (y o) (z o) (dt
     o) (name o) (x_min o) (y_min o) (z_min o) (x_max o) (y_max o) (z_max o) (x_range o) v (z_range o) (params o).
Definition set_z_range (v : float) (o : t) : t :=
  mk (initial_state o) (x o) (y o) (z o) (dt
     o) (name o) (x_min o) (y_min o) (z_min o) (x_max o) (y_max o) (z_max o) (x_range o) (y_range o) v (params o).

Definition init (point : float * float * float) (dt : float) (name : string)
    (fam : family) : t :=
  let '(px, py, pz) := point in
  {| initial_state := point;
     x := px; y := py; z := pz;
     dt := dt;
     name := name;
     x_min := px; y_min := py; z_min := pz;
     x_max := px; y_max := py; z_max := pz;
     x_range := 100; y_range := 100; z_range := 100;
     params := fam |}.

Definition new_Lorenz (point prm : float * float * float) (dt : float) : t :=
  let '(s, r, b) := prm in init point dt "Lorenz" (Lorenz s r b).
Definition new_PanXuZhou (point prm : float * float * float) (dt : float) : t :=
  let '(a, b, c) := prm in init point dt "Pan-Xu-Zhou" (PanXuZhou a b c).
Definition new_Rossler (point prm : float * float * float) (dt : float) : t :=
  let '(a, b, c) := prm in init point dt "Rossler" (Rossler a b c).
Definition new_Rikitake (point : float * float * float) (prm : float * float)
    (dt : float) : t :=
  let '(a, mu) := prm in init point dt "Rikitake" (Rikitake a mu).

Definition default_Lorenz : t := new_Lorenz (0, 1, 1.05) (10, 28, 2.667) 0.01.
Definition default_PanXuZhou : t := new_PanXuZhou (1, 1, 1) (10, 2.667, 16) 0.01.
Definition default_Rossler : t := new_Rossler (0.1, 0, -0.1) (0.13, 0.2, 6.5) 0.01.
Definition default_Rikitake : t := new_Rikitake (0.1, 0, -0.1) (5, 2) 0.01.

Definition step (o : t) : t :=
  match params o with
  | Base => o
  | Lorenz s r b =>
      let x_dot := s * (y o - x o) in
      let y_dot := r * x o - y o - x o * z o in
      let z_dot := x o * y o - b * z o in
      let o := set_x (x o + x_dot * dt o) o in
      let o := set_y (y o + y_dot * dt o) o in
      set_z (z o + z_dot * dt o) o
  | PanXuZhou a b c =>
      let x_dot := a * (y o - x o) in
      let y_dot := c * x o - x o * z o in
      let z_dot := x o * y o - b * z o in
      let o := set_x (x o + x_dot * dt o) o in
      let o := set_y (y o + y_dot * dt o) o in
      set_z (z o + z_dot * dt o) o
  | Rossler a b c =>
      let x_dot := - (y o + z o) in
      let y_dot := x o + a * y o in
      let z_dot := b + z o * (x o - c) in
      let o := set_x (x o + x_dot * dt o) o in
      let o := set_y (y o + y_dot * dt o) o in
      set_z (z o + z_dot * dt o) o
  | Rikitake a mu =>
      let x_dot := - (mu * x o) + (z o * y o) in
      let y_dot := - (mu * y o) + x o * (z o - a) in
      let z_dot := 1 - (x o * y o) in
      let o := set_x (x o + x_dot * dt o) o in
      let o := set_y (y o + y_dot * dt o) o in
      set_z (z o + z_dot * dt o) o
  end.

Definition estimate_body (o : t) : t :=
  let o := step o in
  let o := set_x_max (py_max (x o) (x_max o)) o in
  let o := set_y_max (py_max (y o) (y_max o)) o in
  let o := set_z_max (py_max (z o) (z_max o)) o in
  let o := set_x_min (py_min (x o) (x_min o)) o in
  let o := set_y_min (py_min (y o) (y_min o)) o in
  set_z_min (py_min (z o) (z_min o)) o.

Fixpoint estimate_loop (steps : nat) (o : t) : t :=
  match steps with
  | O => o
  | S n => estimate_loop n (estimate_body o)
  end.

Definition estimate_ranges (steps : nat) (o : t) : t :=
  let o := estimate_loop steps o in
  let o := set_x_range (x_max o - x_min o) o in
  let o := set_y_range (y_max o - y_min o) o in
  let o := set_z_range (z_max o - z_min o) o in
  let o := set_x (fst (fst (initial_state o))) o in
  let o := set_y (snd (fst (initial_state o))) o in
  set_z (snd (initial_state o)) o.

Definition x_scaled (o : t) : result float := py_div (100 * (x o - x_min o)) (x_range o).
Definition y_scaled (o : t) : result float := py_div (100 * (y o - y_min o)) (y_range o).
Definition z_scaled (o : t) : result float := py_div (100 * (z o - z_min o)) (z_range o).

(** [update_speed(self)]: the value assigned to [self.period] for the
    knob position [val]. *)
Definition update_speed (val : float) : float :=
  let low := 1000 in
  let mid := 100 in
  let high := 10 in
  if val =? 0 then low
  else if val <? 50 then low - ((low - mid) * (val / 50))
  else mid - ((mid - high) * (val - 50) / 50).

End F64.

(** ** The controller *)

(** Maximum voltage output. *)
Definition MAX_OUTPUT : Z := 5.

(** MicroPython's [ticks_diff(new, old)] on millisecond tick counts, away
    from the counter's wrap-around. *)
Definition ticks_diff (new old : Z) : Z := new - old.

(** [choice(range(0, n))]: some index below [n] picked from the generator's
    state [seed]; an empty range raises. *)
Definition choice_range (seed n : nat) : result nat :=
  match n with
  | O => Raise IndexError
  | S _ => Ok (seed mod n)%nat
  end.

(** What one call of [update] writes to the six outputs. *)
Record outputs : Type := {
  cv1 : Q; cv2 : Q; cv3 : Q;
  cv4 : bool; cv5 : bool; cv6 : bool
}.

(** What the environment supplies to one pass of the main loop: the two
    knob positions and the two readings of the millisecond clock (the one
    compared with the checkpoint and the one stored by [update]). *)
Record reading : Type := {
  k1_position : Q;
  k2_position : Z;
  now_check : Z;
  now_update : Z
}.

(** The edges delivered to the registered handlers; a button release
    carries [ticks_diff(ticks_ms(), b.last_pressed())]. *)
Inductive event : Type :=
| B1Falling (held : Z)
| B2Falling (held : Z)
| DinRising
| DinFalling.

Module StrangeAttractor.

Local Open Scope Q_scope.

(** The gates are attributes that exist only after the first [update]. *)
Record t : Type := mk {
  attractors : list Attractor.t;
  selected_attractor : nat;
  checkpoint : Z;
  period : Q;
  range : Z;
  threshold : Z;
  freeze : bool;
  show_detail : bool;
  gate4 : option bool;
  gate5 : option bool;
  gate6 : option bool
}.

Definition set_attractors (v : list Attractor.t) (st : t) : t :=
  mk v (selected_attractor st) (checkpoint st) (period st) (range st) (threshold st)
     (freeze st) (show_detail st) (gate4 st) (gate5 st) (gate6 st).
Definition set_selected_attractor (v : nat) (st : t) : t :=
  mk (attractors st) v (checkpoint st) (period st) (range st) (threshold st)
     (freeze st) (show_detail st) (gate4 st) (gate5 st) (gate6 st).
Definition set_checkpoint (v : Z) (st : t) : t :=
  mk (attractors st) (selected_attractor st) v (period st) (range st) (threshold st)
     (freeze st) (show_detail st) (gate4 st) (gate5 st) (gate6 st).
Definition set_period (v : Q) (st : t) : t :=
  mk (attractors st) (selected_attractor st) (checkpoint st) v (range st) (threshold st)
     (freeze st) (show_detail st) (gate4 st) (gate5 st) (gate6 st).
Definition set_range (v : Z) (st : t) : t :=
  mk (attractors st) (selected_attractor st) (checkpoint st) (period st) v (threshold st)
     (freeze st) (show_detail st) (gate4 st) (gate5 st) (gate6 st).
Definition set_threshold (v : Z) (st : t) : t :=
  mk (attractors st) (selected_attractor st) (checkpoint st) (period st) (range st) v
     (freeze st) (show_detail st) (gate4 st) (gate5 st) (gate6 st).
Definition set_freeze (v : bool) (st : t) : t :=
  mk (attractors st) (selected_attractor st) (checkpoint st) (period st) (range st)
     (threshold st) v (show_detail st) (gate4 st) (gate5 st) (gate6 st).
Definition set_show_detail (v : bool) (st : t) : t :=
  mk (attractors st) (selected_attractor st) (checkpoint st) (period st) (range st)
     (threshold st) (freeze st) v (gate4 st) (gate5 st) (gate6 st).
Definition set_gates (g4 g5 g6 : bool) (st : t) : t :=
  mk (attractors st) (selected_attractor st) (checkpoint st) (period st) (range st)
     (threshold st) (freeze st) (show_detail st) (Some g4) (Some g5) (Some g6).

(** [self.a]: the object at [self.attractors[self.selected_attractor]]. *)
Definition a (st : t) : result Attractor.t :=
  match attractors st !! selected_attractor st with
  | Some o => Ok o
  | None => Raise IndexError
  end.

(** [__init__(self, _attractors)], with the number of calibration steps
    (the default argument of [estimate_ranges]) and the random
    generator's state made explicit. *)
Definition init_with (steps seed : nat) (_attractors : list Attractor.t) : result t :=
  let atts := map (Attractor.estimate_ranges steps) _attractors in
  do sel <- choice_range seed (length atts);
  let st := {| attractors := atts;
               selected_attractor := sel;
               checkpoint := 0;
               period := 100;
               range := MAX_OUTPUT;
               threshold := 20;
               freeze := false;
               show_detail := true;
               gate4 := None; gate5 := None; gate6 := None |} in
  do _ <- a st;
  Ok st.

Definition default_steps : nat := Z.to_nat 100000.

Definition init (seed : nat) (_attractors : list Attractor.t) : result t :=
  init_with default_steps seed _attractors.

(** Handler of the falling edge of button 1. *)
Definition b1Pressed (held : Z) (st : t) : result t :=
  if (300 <? held)%Z then
    match length (attractors st) with
    | O => Raise ZeroDivisionError
    | S _ as n =>
        let st := set_selected_attractor ((selected_attractor st + 1) mod n)%nat st in
        do _ <- a st;
        Ok st
    end
  else
    let st := set_range (range st - 1)%Z st in
    Ok (if (range st <? 1)%Z then set_range 1%Z st else st).

(** Handler of the falling edge of button 2. *)
Definition b2Pressed (held : Z) (st : t) : result t :=
  if (300 <? held)%Z then
    Ok (set_show_detail (negb (show_detail st)) st)
  else
    let st := set_range (range st + 1)%Z st in
    Ok (if (MAX_OUTPUT <? range st)%Z then set_range MAX_OUTPUT st else st).

(** Handlers of the rising and of the falling edge of the digital input. *)
Definition dinTrigger (st : t) : t := set_freeze true st.
Definition dinTriggerEnd (st : t) : t := set_freeze false st.

Definition handle (e : event) (st : t) : result t :=
  match e with
  | B1Falling held => b1Pressed held st
  | B2Falling held => b2Pressed held st
  | DinRising => Ok (dinTrigger st)
  | DinFalling => Ok (dinTriggerEnd st)
  end.

(** [update_values(self)]: the step mutates the selected object of the
    list in place. *)
Definition update_values (st : t) : result t :=
  if freeze st then Ok st
  else
    do o <- a st;
    Ok (set_attractors (<[selected_attractor st := Attractor.step o]> (attractors st)) st).

(** [update_speed(self)], [val] being [k1.read_position()]. *)
Definition update_speed (val : Q) (st : t) : t :=
  let low := 1000 in
  let mid := 100 in
  let high := 10 in
  if Qeq_bool val 0 then set_period low st
  else if Qltb val 50 then set_period (low - ((low - mid) * (val / 50))) st
  else set_period (mid - ((mid - high) * (val - 50) / 50)) st.

(** [update_threshold(self)], [val] being [k2.read_position(steps=41)]. *)
Definition update_threshold (val : Z) (st : t) : t := set_threshold val st.

(** [update(self)].  The scaled values are read again for every use in
    the source; nothing changes them in between, so each is bound once,
    in the order of the first calls.  The display is not part of the
    model. *)
Definition update (now : Z) (st : t) : result (t * outputs) :=
  do st <- update_values st;
  do o <- a st;
  do sx <- Attractor.x_scaled o;
  do sy <- Attractor.y_scaled o;
  do sz <- Attractor.z_scaled o;
  let g4 := (Qfloor sx mod 2 =? 0)%Z in
  let g5 := Qltb (inject_Z (threshold st)) (Qabs (sy + sz - 2 * sx)) in
  let g6 := Qltb (inject_Z (threshold st)) (Qabs (sz + sx - 2 * sy)) in
  let out := {| cv1 := (inject_Z (range st) * sx) / 100;
                cv2 := (inject_Z (range st) * sy) / 100;
                cv3 := (inject_Z (range st) * sz) / 100;
                cv4 := g4; cv5 := g5; cv6 := g6 |} in
  let st := set_gates g4 g5 g6 st in
  let st := set_checkpoint now st in
  Ok (st, out).

(** One pass through the body of [while True] in [main]; the second
    component is what was written to the outputs, if anything. *)
Definition main_iter (r : reading) (st : t) : result (t * option outputs) :=
  let st := update_speed (k1_position r) st in
  let st := update_threshold (k2_position r) st in
  if Qltb (period st) (inject_Z (ticks_diff (now_check r) (checkpoint st))) then
    do so <- update (now_update r) st;
    Ok (fst so, Some (snd so))
  else Ok (st, None).

(** What happens to the controller once it runs: a pass of the main
    loop, or an edge handled between two passes. *)
Inductive input : Type :=
| Pass (r : reading)
| Edge (e : event).

Definition react (i : input) (st : t) : result t :=
  match i with
  | Pass r => do so <- main_iter r st; Ok (fst so)
  | Edge e => handle e st
  end.

Fixpoint run (ins : list input) (st : t) : result t :=
  match ins with
  | [] => Ok st
  | i :: ins => do st <- react i st; run ins st
  end.

(** Consecutive passes of the main loop, with what each wrote to the
    outputs. *)
Fixpoint passes (rs : list reading) (st : t) : result (t * list (option outputs)) :=
  match rs with
  | [] => Ok (st, [])
  | r :: rs =>
      do so <- main_iter r st;
      do res <- passes rs (fst so);
      Ok (fst res, snd so :: snd res)
  end.

End StrangeAttractor.

(** ** Reference definitions

    The right-hand sides of the four systems as the specification lists
    them, on a pre-step point [(x, y, z)]; the class [Attractor] itself
    does not move. *)

Definition x_dot (fam : Attractor.family) (x y z : Q) : Q :=
  match fam with
  | Attractor.Base => 0
  | Attractor.Lorenz s r b => s * (y - x)
  | Attractor.PanXuZhou a b c => a * (y - x)
  | Attractor.Rossler a b c => - (y + z)
  | Attractor.Rikitake a mu => - mu * x + z * y
  end%Q.

Definition y_dot (fam : Attractor.family) (x y z : Q) : Q :=
  match fam with
  | Attractor.Base => 0
  | Attractor.Lorenz s r b => r * x - y - x * z
  | Attractor.PanXuZhou a b c => c * x - x * z
  | Attractor.Rossler a b c => x + a * y
  | Attractor.Rikitake a mu => - mu * y + x * (z - a)
  end%Q.

Definition z_dot (fam : Attractor.family) (x y z : Q) : Q :=
  match fam with
  | Attractor.Base => 0
  | Attractor.Lorenz s r b => x * y - b * z
  | Attractor.PanXuZhou a b c => x * y - b * z
  | Attractor.Rossler a b c => b + z * (x - c)
  | Attractor.Rikitake a mu => 1 - x * y
  end%Q.

(** Two objects that agree on everything but the calibration bounds. *)
Definition same_but_bounds (o1 o2 : Attractor.t) : Prop :=
  Attractor.initial_state o1 = Attractor.initial_state o2 /\
  Attractor.x o1 = Attractor.x o2 /\
  Attractor.y o1 = Attractor.y o2 /\
  Attractor.z o1 = Attractor.z o2 /\
  Attractor.dt o1 = Attractor.dt o2 /\
  Attractor.name o1 = Attractor.name o2 /\
  Attractor.params o1 = Attractor.params o2.

(** The points a calibration run of [steps] steps visits after the
    starting one, in order. *)
Fixpoint trajectory (steps : nat) (o : Attractor.t) : list Attractor.t :=
  match steps with
  | O => []
  | S n => Attractor.step o :: trajectory n (Attractor.step o)
  end.

(** The largest and the smallest of a start value and the values that
    follow it, taken one at a time as the calibration loop does. *)
Definition running_max (vs : list Q) (start : Q) : Q :=
  fold_left (fun m v => py_max v m) vs start.
Definition running_min (vs : list Q) (start : Q) : Q :=
  fold_left (fun m v => py_min v m) vs start.


(** A Lorenz object started at the origin, a fixed point of the system. *)
Definition Lorenz_at_origin : Attractor.t :=
  Attractor.new_Lorenz (0, 0, 0)%Q (10, 28, 2.667)%Q 0.01%Q.

(** The six output values of a tick as the specification computes them
    from the scaled values. *)
Definition outputs_of (range threshold : Z) (sx sy sz : Q) : outputs :=
  {| cv1 := (inject_Z range * sx / 100)%Q;
     cv2 := (inject_Z range * sy / 100)%Q;
     cv3 := (inject_Z range * sz / 100)%Q;
     cv4 := (Qfloor sx mod 2 =? 0)%Z;
     cv5 := Qltb (inject_Z threshold) (Qabs (sy + sz - 2 * sx));
     cv6 := Qltb (inject_Z threshold) (Qabs (sz + sx - 2 * sy)) |}.

(** The three gate attributes of the controller. *)
Definition gates (st : StrangeAttractor.t) : option bool * option bool * option bool :=
  (StrangeAttractor.gate4 st, StrangeAttractor.gate5 st, StrangeAttractor.gate6 st).

(** A release that the handlers treat as a short press. *)
Definition is_short_press (e : event) : Prop :=
  match e with
  | B1Falling held | B2Falling held => (held <= 300)%Z
  | DinRising | DinFalling => False
  end.

(** The controller as its constructor returns it for the four default
    objects, two calibration steps each and the first object selected. *)
Definition demo : StrangeAttractor.t :=
  {| StrangeAttractor.attractors := map (Attractor.estimate_ranges 2) get_attractors;
     StrangeAttractor.selected_attractor := 0;
     StrangeAttractor.checkpoint := 0;
     StrangeAttractor.period := 100;
     StrangeAttractor.range := MAX_OUTPUT;
     StrangeAttractor.threshold := 20;
     StrangeAttractor.freeze := false;
     StrangeAttractor.show_detail := true;
     StrangeAttractor.gate4 := None;
     StrangeAttractor.gate5 := None;
     StrangeAttractor.gate6 := None |}.

(** The classes whose right-hand sides all vanish at the origin. *)
Definition rests_at_origin (fam : Attractor.family) : bool :=
  match fam with
  | Attractor.Base | Attractor.Lorenz _ _ _ | Attractor.PanXuZhou _ _ _ => true
  | Attractor.Rossler _ _ _ | Attractor.Rikitake _ _ => false
  end.

(** An object of such a class whose coordinates are at the origin. *)
Definition resting (o : Attractor.t) : Prop :=
  rests_at_origin (Attractor.params o) = true /\
  (Attractor.x o == 0)%Q /\ (Attractor.y o == 0)%Q /\ (Attractor.z o == 0)%Q.

(** The selection points into the list. *)
Definition selection_valid (st : StrangeAttractor.t) : Prop :=
  (StrangeAttractor.selected_attractor st < length (StrangeAttractor.attractors st))%nat.

(** No axis of the object has a zero range. *)
Definition nondegenerate (o : Attractor.t) : Prop :=
  ~ (Attractor.x_range o == 0)%Q /\
  ~ (Attractor.y_range o == 0)%Q /\
  ~ (Attractor.z_range o == 0)%Q.

(** The number of passes that wrote to the outputs. *)
Definition ticks_in (ws : list (option outputs)) : nat :=
  length (List.filter (fun w => match w with Some _ => true | None => false end) ws).


(** * Properties *)

(** ** Arithmetic helpers *)

Lemma Qltb_lt (p q : Q) : Qltb p q = true <-> (p < q)%Q.
Proof.
  unfold Qltb. rewrite negb_true_iff. split.
  - intros H. apply Qnot_le_lt. intros Hle.
    apply Qle_bool_iff in Hle. congruence.
  - intros H. destruct (Qle_bool q p) eqn:E; [|reflexivity].
    apply Qle_bool_iff in E. apply Qlt_not_le in H. contradiction.
Qed.

Lemma Qltb_ge (p q : Q) : Qltb p q = false <-> (q <= p)%Q.
Proof.
  unfold Qltb. rewrite negb_false_iff. apply Qle_bool_iff.
Qed.

Lemma py_div_nonzero (n d : Q) : ~ (d == 0)%Q -> py_div n d = Ok (n / d)%Q.
Proof.
  intros Hd. unfold py_div. destruct (Qeq_bool d 0) eqn:E; [|reflexivity].
  apply Qeq_bool_iff in E. contradiction.
Qed.

Lemma py_div_zero (n d : Q) : (d == 0)%Q -> py_div n d = Raise ZeroDivisionError.
Proof.
  intros Hd. unfold py_div. apply Qeq_bool_iff in Hd. rewrite Hd. reflexivity.
Qed.

Lemma py_max_ub (p q : Q) : (p <= py_max p q /\ q <= py_max p q)%Q.
Proof.
  unfold py_max. destruct (Qltb p q) eqn:E.
  - apply Qltb_lt in E. split; lra.
  - apply Qltb_ge in E. split; lra.
Qed.

Lemma py_max_cases (p q : Q) : py_max p q = p \/ py_max p q = q.
Proof. unfold py_max. destruct (Qltb p q); auto. Qed.

Lemma py_min_lb (p q : Q) : (py_min p q <= p /\ py_min p q <= q)%Q.
Proof.
  unfold py_min. destruct (Qltb q p) eqn:E.
  - apply Qltb_lt in E. split; lra.
  - apply Qltb_ge in E. split; lra.
Qed.

Lemma py_min_cases (p q : Q) : py_min p q = p \/ py_min p q = q.
Proof. unfold py_min. destruct (Qltb q p); auto. Qed.

(** ** The integration step *)

Lemma step_frame (o : Attractor.t) :
  Attractor.step o =
  Attractor.set_z (Attractor.z (Attractor.step o))
    (Attractor.set_y (Attractor.y (Attractor.step o))
       (Attractor.set_x (Attractor.x (Attractor.step o)) o)).
Proof. destruct o as [? ? ? ? ? ? ? ? ? ? ? ? ? ? ? []]; reflexivity. Qed.

(** C2. One call of [step] is an explicit forward Euler step for each of
    the four systems (and the identity for the base class): every
    coordinate becomes [axis + dt * derivative], all three derivatives
    taken at the point before the call, and no other attribute changes.
    From the default Lorenz object the first step gives x = 0.1, y = 0.99
    and z = 1.0219965, which is within 0.00001 of 1.022. *)
Theorem step_forward_euler :
  (forall o : Attractor.t,
     let x0 := Attractor.x o in
     let y0 := Attractor.y o in
     let z0 := Attractor.z o in
     let o' := Attractor.step o in
     (Attractor.x o' == x0 + Attractor.dt o * x_dot (Attractor.params o) x0 y0 z0)%Q /\
     (Attractor.y o' == y0 + Attractor.dt o * y_dot (Attractor.params o) x0 y0 z0)%Q /\
     (Attractor.z o' == z0 + Attractor.dt o * z_dot (Attractor.params o) x0 y0 z0)%Q /\
     o' = Attractor.set_z (Attractor.z o')
            (Attractor.set_y (Attractor.y o')
               (Attractor.set_x (Attractor.x o') o))) /\
  (let o' := Attractor.step Attractor.default_Lorenz in
   (Attractor.x o' == 0.1)%Q /\
   (Attractor.y o' == 0.99)%Q /\
   (Attractor.z o' == 1.0219965)%Q /\
   (Qabs (Attractor.z o' - 1.022) < 0.00001)%Q).
Proof.
  split.
  - intros [ini x y z dt nm xmn ymn zmn xmx ymx zmx xr yr zr fam].
    destruct fam; cbn; repeat split; try reflexivity; ring.
  - cbn. repeat split; reflexivity.
Qed.

(** ** Calibration *)

Lemma step_same_but_bounds (o1 o2 : Attractor.t) :
  same_but_bounds o1 o2 -> same_but_bounds (Attractor.step o1) (Attractor.step o2).
Proof.
  destruct o1, o2. unfold same_but_bounds. cbn.
  intros (-> & -> & -> & -> & -> & -> & ->).
  destruct params0; cbn; repeat split.
Qed.

Lemma estimate_body_same_but_bounds (o : Attractor.t) :
  same_but_bounds (Attractor.estimate_body o) (Attractor.step o).
Proof. repeat split. Qed.

Lemma trajectory_same_but_bounds (n : nat) :
  forall o1 o2, same_but_bounds o1 o2 ->
    map Attractor.x (trajectory n o1) = map Attractor.x (trajectory n o2) /\
    map Attractor.y (trajectory n o1) = map Attractor.y (trajectory n o2) /\
    map Attractor.z (trajectory n o1) = map Attractor.z (trajectory n o2).
Proof.
  induction n as [|n IH]; intros o1 o2 H; [repeat split|].
  apply step_same_but_bounds in H.
  destruct (IH _ _ H) as (Hx & Hy & Hz).
  destruct H as (_ & Ex & Ey & Ez & _).
  cbn [trajectory map]. rewrite Hx, Hy, Hz, Ex, Ey, Ez. repeat split.
Qed.

Lemma estimate_body_fields (o : Attractor.t) :
  let s := Attractor.step o in
  let b := Attractor.estimate_body o in
  Attractor.initial_state b = Attractor.initial_state o /\
  Attractor.dt b = Attractor.dt o /\
  Attractor.name b = Attractor.name o /\
  Attractor.params b = Attractor.params o /\
  Attractor.x_max b = py_max (Attractor.x s) (Attractor.x_max o) /\
  Attractor.y_max b = py_max (Attractor.y s) (Attractor.y_max o) /\
  Attractor.z_max b = py_max (Attractor.z s) (Attractor.z_max o) /\
  Attractor.x_min b = py_min (Attractor.x s) (Attractor.x_min o) /\
  Attractor.y_min b = py_min (Attractor.y s) (Attractor.y_min o) /\
  Attractor.z_min b = py_min (Attractor.z s) (Attractor.z_min o).
Proof. destruct o as [? ? ? ? ? ? ? ? ? ? ? ? ? ? ? []]; repeat split. Qed.

(** What the loop of [estimate_ranges] leaves behind, from any object. *)
Lemma estimate_loop_spec (n : nat) :
  forall o,
    let c := Attractor.estimate_loop n o in
    Attractor.initial_state c = Attractor.initial_state o /\
    Attractor.dt c = Attractor.dt o /\
    Attractor.name c = Attractor.name o /\
    Attractor.params c = Attractor.params o /\
    Attractor.x_max c = running_max (map Attractor.x (trajectory n o)) (Attractor.x_max o) /\
    Attractor.y_max c = running_max (map Attractor.y (trajectory n o)) (Attractor.y_max o) /\
    Attractor.z_max c = running_max (map Attractor.z (trajectory n o)) (Attractor.z_max o) /\
    Attractor.x_min c = running_min (map Attractor.x (trajectory n o)) (Attractor.x_min o) /\
    Attractor.y_min c = running_min (map Attractor.y (trajectory n o)) (Attractor.y_min o) /\
    Attractor.z_min c = running_min (map Attractor.z (trajectory n o)) (Attractor.z_min o).
Proof.
  induction n as [|n IH]; intros o; [repeat split|].
  cbn zeta. cbn [Attractor.estimate_loop trajectory map].
  destruct (IH (Attractor.estimate_body o))
    as (Hi & Hd & Hn & Hp & Hxx & Hyx & Hzx & Hxn & Hyn & Hzn).
  destruct (trajectory_same_but_bounds n _ _ (estimate_body_same_but_bounds o))
    as (Tx & Ty & Tz).
  destruct (estimate_body_fields o)
    as (Bi & Bd & Bn & Bp & Bxx & Byx & Bzx & Bxn & Byn & Bzn).
  rewrite Hi, Hd, Hn, Hp, Hxx, Hyx, Hzx, Hxn, Hyn, Hzn, Tx, Ty, Tz.
  rewrite Bi, Bd, Bn, Bp, Bxx, Byx, Bzx, Bxn, Byn, Bzn.
  repeat split.
Qed.

Lemma estimate_ranges_fields (n : nat) (o : Attractor.t) :
  let l := Attractor.estimate_loop n o in
  let c := Attractor.estimate_ranges n o in
  Attractor.initial_state c = Attractor.initial_state l /\
  Attractor.x c = fst (fst (Attractor.initial_state l)) /\
  Attractor.y c = snd (fst (Attractor.initial_state l)) /\
  Attractor.z c = snd (Attractor.initial_state l) /\
  Attractor.dt c = Attractor.dt l /\
  Attractor.name c = Attractor.name l /\
  Attractor.params c = Attractor.params l /\
  Attractor.x_max c = Attractor.x_max l /\
  Attractor.y_max c = Attractor.y_max l /\
  Attractor.z_max c = Attractor.z_max l /\
  Attractor.x_min c = Attractor.x_min l /\
  Attractor.y_min c = Attractor.y_min l /\
  Attractor.z_min c = Attractor.z_min l /\
  Attractor.x_range c = (Attractor.x_max c - Attractor.x_min c)%Q /\
  Attractor.y_range c = (Attractor.y_max c - Attractor.y_min c)%Q /\
  Attractor.z_range c = (Attractor.z_max c - Attractor.z_min c)%Q.
Proof. repeat split. Qed.



(** The running maximum bounds every value it has seen and is one of
    them; likewise the running minimum. *)
Lemma running_max_spec (vs : list Q) :
  forall start,
    Forall (fun v => (v <= running_max vs start)%Q) (start :: vs) /\
    In (running_max vs start) (start :: vs).
Proof.
  induction vs as [|v vs IH]; intros start.
  - split; [repeat constructor; apply Qle_refl | left; reflexivity].
  - destruct (IH (py_max v start)) as (Hall & Hin).
    change (running_max (v :: vs) start) with (running_max vs (py_max v start)).
    inversion Hall as [|? ? Hhd Htl]; subst. split.
    + destruct (py_max_ub v start) as (Hv & Hs).
      constructor; [exact (Qle_trans _ _ _ Hs Hhd)|].
      constructor; [exact (Qle_trans _ _ _ Hv Hhd)|assumption].
    + destruct Hin as [Hin | Hin].
      * destruct (py_max_cases v start) as [E | E].
        -- right; left. exact (eq_trans (eq_sym E) Hin).
        -- left. exact (eq_trans (eq_sym E) Hin).
      * right; right; assumption.
Qed.

Lemma running_min_spec (vs : list Q) :
  forall start,
    Forall (fun v => (running_min vs start <= v)%Q) (start :: vs) /\
    In (running_min vs start) (start :: vs).
Proof.
  induction vs as [|v vs IH]; intros start.
  - split; [repeat constructor; apply Qle_refl | left; reflexivity].
  - destruct (IH (py_min v start)) as (Hall & Hin).
    change (running_min (v :: vs) start) with (running_min vs (py_min v start)).
    inversion Hall as [|? ? Hhd Htl]; subst. split.
    + destruct (py_min_lb v start) as (Hv & Hs).
      constructor; [exact (Qle_trans _ _ _ Hhd Hs)|].
      constructor; [exact (Qle_trans _ _ _ Hhd Hv)|assumption].
    + destruct Hin as [Hin | Hin].
      * destruct (py_min_cases v start) as [E | E].
        -- right; left. exact (eq_trans (eq_sym E) Hin).
        -- left. exact (eq_trans (eq_sym E) Hin).
      * right; right; assumption.
Qed.


Lemma estimate_ranges_same_but_bounds_fresh (n : nat) (o : Attractor.t) :
  (Attractor.x o, Attractor.y o, Attractor.z o) = Attractor.initial_state o ->
  same_but_bounds (Attractor.estimate_ranges n o) o.
Proof.
  intros Hi.
  destruct (estimate_ranges_fields n o)
    as (Ei & Ex & Ey & Ez & Ed & En & Ep & _).
  destruct (estimate_loop_spec n o) as (Li & Ld & Ln & Lp & _).
  rewrite Li in Ei, Ex, Ey, Ez. rewrite <- Hi in Ex, Ey, Ez.
  unfold same_but_bounds. rewrite Ei, Ex, Ey, Ez, Ed, En, Ep, Ld, Ln, Lp.
  repeat split.
Qed.

(** C6 (what the code does).  For every step count and from any object,
    a calibration run keeps, for each axis, a running maximum and a running
    minimum that start from the maximum and the minimum the object already
    stores, sets each range to their difference, and then resets the
    coordinates to the object's initial point; the initial point, [dt], the
    name and the parameters are unchanged.  On a freshly constructed object
    the stored bounds are the current values and the coordinates are at the
    initial point, so there the run starts from the current values and only
    the bounds differ from the state before it. *)
Theorem estimate_ranges_tracks_and_resets :
  (forall (steps : nat) (o : Attractor.t),
     let c := Attractor.estimate_ranges steps o in
     let visited := trajectory steps o in
     Attractor.x c = fst (fst (Attractor.initial_state o)) /\
     Attractor.y c = snd (fst (Attractor.initial_state o)) /\
     Attractor.z c = snd (Attractor.initial_state o) /\
     Attractor.initial_state c = Attractor.initial_state o /\
     Attractor.dt c = Attractor.dt o /\
     Attractor.name c = Attractor.name o /\
     Attractor.params c = Attractor.params o /\
     Attractor.x_max c = running_max (map Attractor.x visited) (Attractor.x_max o) /\
     Attractor.y_max c = running_max (map Attractor.y visited) (Attractor.y_max o) /\
     Attractor.z_max c = running_max (map Attractor.z visited) (Attractor.z_max o) /\
     Attractor.x_min c = running_min (map Attractor.x visited) (Attractor.x_min o) /\
     Attractor.y_min c = running_min (map Attractor.y visited) (Attractor.y_min o) /\
     Attractor.z_min c = running_min (map Attractor.z visited) (Attractor.z_min o) /\
     Attractor.x_range c = (Attractor.x_max c - Attractor.x_min c)%Q /\
     Attractor.y_range c = (Attractor.y_max c - Attractor.y_min c)%Q /\
     Attractor.z_range c = (Attractor.z_max c - Attractor.z_min c)%Q) /\
  (forall (steps : nat) (point : Q * Q * Q) (dt : Q) (name : string)
          (fam : Attractor.family),
     let o := Attractor.init point dt name fam in
     let c := Attractor.estimate_ranges steps o in
     (Attractor.x_max o, Attractor.y_max o, Attractor.z_max o)
     = (Attractor.x o, Attractor.y o, Attractor.z o) /\
     (Attractor.x_min o, Attractor.y_min o, Attractor.z_min o)
     = (Attractor.x o, Attractor.y o, Attractor.z o) /\
     (Attractor.x c, Attractor.y c, Attractor.z c) = point /\
     same_but_bounds c o).
Proof.
  split.
  - intros steps o c visited.
    destruct (estimate_ranges_fields steps o)
      as (Ei & Ex & Ey & Ez & Ed & En & Ep & Exx & Eyx & Ezx & Exn & Eyn & Ezn & Er).
    destruct (estimate_loop_spec steps o)
      as (Li & Ld & Ln & Lp & Lxx & Lyx & Lzx & Lxn & Lyn & Lzn).
    fold c in Ei, Ex, Ey, Ez, Ed, En, Ep, Exx, Eyx, Ezx, Exn, Eyn, Ezn, Er.
    rewrite Li in Ei, Ex, Ey, Ez.
    destruct Er as (Rx & Ry & Rz).
    split; [exact Ex|]. split; [exact Ey|]. split; [exact Ez|]. split; [exact Ei|].
    split; [rewrite Ed; exact Ld|]. split; [rewrite En; exact Ln|].
    split; [rewrite Ep; exact Lp|].
    split; [rewrite Exx; exact Lxx|]. split; [rewrite Eyx; exact Lyx|].
    split; [rewrite Ezx; exact Lzx|].
    split; [rewrite Exn; exact Lxn|]. split; [rewrite Eyn; exact Lyn|].
    split; [rewrite Ezn; exact Lzn|].
    split; [exact Rx|]. split; [exact Ry | exact Rz].
  - intros steps [[px py] pz] dt name fam o c.
    split; [reflexivity|]. split; [reflexivity|].
    pose proof (estimate_ranges_same_but_bounds_fresh steps o (eq_refl _)) as Hs.
    fold c in Hs. split; [|exact Hs].
    destruct Hs as (_ & -> & -> & -> & _). reflexivity.
Qed.

(** C6 (as stated, refuted).  A Lorenz object that has taken one step
    stores the bounds 0 and 0 on the x axis while its x is 0.1.  A calibration
    run of one step visits x = 0.189: a minimum tracked from the current value
    would be 0.1, the run leaves 0, the stored one; and it moves x from 0.1
    back to 0, so the coordinates differ from those before the run, not only
    the bounds. *)
Lemma estimate_ranges_counterexample :
  let o := Attractor.step Attractor.default_Lorenz in
  let c := Attractor.estimate_ranges 1 o in
  (Attractor.x o == 0.1)%Q /\
  (running_min (map Attractor.x (trajectory 1 o)) (Attractor.x o) == 0.1)%Q /\
  (Attractor.x_min c == 0)%Q /\
  (Attractor.x c == 0)%Q /\
  ~ (Attractor.x c == Attractor.x o)%Q /\
  ~ same_but_bounds c o.
Proof.
  cbv zeta.
  split; [vm_compute; reflexivity|]. split; [vm_compute; reflexivity|].
  split; [vm_compute; reflexivity|]. split; [vm_compute; reflexivity|].
  split; [vm_compute; discriminate|].
  intros (_ & Hx & _). vm_compute in Hx. discriminate Hx.
Qed.

(** ** Normalisation *)







Lemma iter_step_bounds (k : nat) (o : Attractor.t) :
  let o' := Nat.iter k Attractor.step o in
  Attractor.x_range o' = Attractor.x_range o /\
  Attractor.y_range o' = Attractor.y_range o /\
  Attractor.z_range o' = Attractor.z_range o.
Proof.
  induction k as [|k IH]; [repeat split|].
  cbn [Nat.iter nat_rect]. cbv zeta. rewrite step_frame. exact IH.
Qed.

(** C10. A freshly constructed object has range 100 on every axis and
    its minima at the initial point, so each scaled value is computed
    without a division error, at the initial point and after any number of
    steps, and is 0 at the initial point. *)
Theorem scaled_of_fresh_attractor :
  forall (point : Q * Q * Q) (dt : Q) (name : string) (fam : Attractor.family),
    let o := Attractor.init point dt name fam in
    Attractor.x_range o = 100%Q /\
    Attractor.y_range o = 100%Q /\
    Attractor.z_range o = 100%Q /\
    (Attractor.x_min o, Attractor.y_min o, Attractor.z_min o) = point /\
    (Attractor.x o, Attractor.y o, Attractor.z o) = point /\
    (exists sx, Attractor.x_scaled o = Ok sx /\ (sx == 0)%Q) /\
    (exists sy, Attractor.y_scaled o = Ok sy /\ (sy == 0)%Q) /\
    (exists sz, Attractor.z_scaled o = Ok sz /\ (sz == 0)%Q) /\
    (forall k : nat,
       exists sx sy sz,
         Attractor.x_scaled (Nat.iter k Attractor.step o) = Ok sx /\
         Attractor.y_scaled (Nat.iter k Attractor.step o) = Ok sy /\
         Attractor.z_scaled (Nat.iter k Attractor.step o) = Ok sz).
Proof.
  intros [[px py] pz] dt name fam. cbv zeta.
  do 5 (split; [reflexivity|]).
  split; [|split; [|split]].
  - exists (100 * (px - px) / 100)%Q. split; [reflexivity | field].
  - exists (100 * (py - py) / 100)%Q. split; [reflexivity | field].
  - exists (100 * (pz - pz) / 100)%Q. split; [reflexivity | field].
  - intros k.
    destruct (iter_step_bounds k (Attractor.init (px, py, pz) dt name fam))
      as (Ex & Ey & Ez).
    cbv zeta in Ex, Ey, Ez.
    unfold Attractor.x_scaled, Attractor.y_scaled, Attractor.z_scaled.
    rewrite Ex, Ey, Ez. eexists _, _, _.
    split; [|split]; apply py_div_nonzero; discriminate.
Qed.

(** ** Degenerate calibration *)

(** The constructor of the controller succeeds on every non-empty list
    and calibrates each of its objects. *)
Lemma init_with_ok (steps seed : nat) (atts : list Attractor.t) :
  atts <> [] ->
  exists st,
    StrangeAttractor.init_with steps seed atts = Ok st /\
    StrangeAttractor.attractors st = map (Attractor.estimate_ranges steps) atts /\
    StrangeAttractor.selected_attractor st = (seed mod length atts)%nat /\
    StrangeAttractor.range st = MAX_OUTPUT /\
    StrangeAttractor.freeze st = false.
Proof.
  intros Hne. unfold StrangeAttractor.init_with.
  rewrite length_map.
  destruct atts as [|o atts]; [congruence|].
  set (l := o :: atts). set (n := length l).
  assert (Hn : (seed mod n < n)%nat) by (apply Nat.mod_upper_bound; discriminate).
  change (choice_range seed n) with (@Ok nat (seed mod n)%nat).
  cbn [rbind]. unfold StrangeAttractor.a. cbn [StrangeAttractor.attractors
    StrangeAttractor.selected_attractor].
  destruct (lookup_lt_is_Some_2 (map (Attractor.estimate_ranges steps) l) (seed mod n)%nat)
    as [c Hc]; [rewrite length_map; exact Hn|].
  rewrite Hc. cbn [rbind]. eexists. split; [reflexivity|]. repeat split.
Qed.

(** C1 (what the code does).  When a calibration run ends with max equal
    to min on an axis, the axis's range is that zero difference: nothing
    replaces it by a default.  The run itself raises nothing, so the
    constructor of the controller goes on to calibrate every object of its
    list; but every later computation of the scaled value of that axis, after
    any number of steps, raises [ZeroDivisionError]. *)
Theorem degenerate_range_raises :
  forall (steps : nat) (o : Attractor.t),
    let c := Attractor.estimate_ranges steps o in
    ((Attractor.x_max c == Attractor.x_min c)%Q ->
     (Attractor.x_range c == 0)%Q /\
     forall k, Attractor.x_scaled (Nat.iter k Attractor.step c)
               = Raise ZeroDivisionError) /\
    ((Attractor.y_max c == Attractor.y_min c)%Q ->
     (Attractor.y_range c == 0)%Q /\
     forall k, Attractor.y_scaled (Nat.iter k Attractor.step c)
               = Raise ZeroDivisionError) /\
    ((Attractor.z_max c == Attractor.z_min c)%Q ->
     (Attractor.z_range c == 0)%Q /\
     forall k, Attractor.z_scaled (Nat.iter k Attractor.step c)
               = Raise ZeroDivisionError) /\
    (forall (seed : nat) (before after : list Attractor.t),
       exists st,
         StrangeAttractor.init_with steps seed (before ++ o :: after) = Ok st /\
         StrangeAttractor.attractors st
         = map (Attractor.estimate_ranges steps) (before ++ o :: after)).
Proof.
  intros steps o c.
  destruct (estimate_ranges_fields steps o)
    as (_ & _ & _ & _ & _ & _ & _ & _ & _ & _ & _ & _ & _ & Rx & Ry & Rz).
  fold c in Rx, Ry, Rz. clearbody c.
  split; [|split; [|split]].
  - intros H. assert (Z : (Attractor.x_range c == 0)%Q) by (rewrite Rx; lra).
    split; [exact Z|]. intros k. apply py_div_zero.
    destruct (iter_step_bounds k c) as (E & _). cbv zeta in E. rewrite E. exact Z.
  - intros H. assert (Z : (Attractor.y_range c == 0)%Q) by (rewrite Ry; lra).
    split; [exact Z|]. intros k. apply py_div_zero.
    destruct (iter_step_bounds k c) as (_ & E & _). cbv zeta in E. rewrite E. exact Z.
  - intros H. assert (Z : (Attractor.z_range c == 0)%Q) by (rewrite Rz; lra).
    split; [exact Z|]. intros k. apply py_div_zero.
    destruct (iter_step_bounds k c) as (_ & _ & E). cbv zeta in E. rewrite E. exact Z.
  - intros seed before after.
    destruct (init_with_ok steps seed (before ++ o :: after)) as (st & Hst & Ha & _).
    + destruct before; discriminate.
    + exists st. split; assumption.
Qed.

Lemma degenerate_range_raises_witness :
  let c := Attractor.estimate_ranges 3 Lorenz_at_origin in
  (Attractor.x_max c == Attractor.x_min c)%Q /\
  (Attractor.x_range c == 0)%Q /\
  Attractor.x_scaled (Nat.iter 2 Attractor.step c) = Raise ZeroDivisionError.
Proof.
  intros c.
  assert (H : (Attractor.x_max c == Attractor.x_min c)%Q)
    by (vm_compute; reflexivity).
  destruct (degenerate_range_raises 3 Lorenz_at_origin) as (Ax & _).
  destruct (Ax H) as (Z & R).
  split; [exact H|]. split; [exact Z | exact (R 2%nat)].
Defined.

(** C1 (as stated, refuted).  Calibrating the Lorenz object started at
    the origin observes max = min on the x axis; the range becomes 0, not
    the default 100, and the scaled value raises a division error. *)
Lemma degenerate_calibration_counterexample :
  let c := Attractor.estimate_ranges 3 Lorenz_at_origin in
  (Attractor.x_max c == Attractor.x_min c)%Q /\
  (Attractor.x_range c == 0)%Q /\
  ~ (Attractor.x_range c == 100)%Q /\
  Attractor.x_scaled c = Raise ZeroDivisionError.
Proof.
  cbv zeta. split; [vm_compute; reflexivity|]. split; [vm_compute; reflexivity|].
  split; [vm_compute; discriminate | vm_compute; reflexivity].
Qed.

(** ** The controller *)

Lemma demo_is_constructed : StrangeAttractor.init_with 2 0 get_attractors = Ok demo.
Proof. vm_compute. reflexivity. Qed.

Lemma rbind_Ok {A B : Type} (r : result A) (k : A -> result B) (v : B) :
  rbind r k = Ok v -> exists u, r = Ok u /\ k u = Ok v.
Proof. destruct r as [u|e]; cbn; [eauto | discriminate]. Qed.

(** *** Speed *)

Lemma update_speed_period (val : Q) (st : StrangeAttractor.t) :
  StrangeAttractor.period (StrangeAttractor.update_speed val st)
  = if Qeq_bool val 0 then 1000%Q
    else if Qltb val 50 then (1000 - ((1000 - 100) * (val / 50)))%Q
         else (100 - ((100 - 10) * (val - 50) / 50))%Q.
Proof.
  unfold StrangeAttractor.update_speed.
  destruct (Qeq_bool val 0); [reflexivity|].
  destruct (Qltb val 50); reflexivity.
Qed.

Lemma update_speed_frame (val : Q) (st : StrangeAttractor.t) :
  StrangeAttractor.update_speed val st
  = StrangeAttractor.set_period
      (StrangeAttractor.period (StrangeAttractor.update_speed val st)) st.
Proof.
  unfold StrangeAttractor.update_speed.
  destruct (Qeq_bool val 0); [reflexivity|].
  destruct (Qltb val 50); reflexivity.
Qed.






(** *** One call of [update] *)

Lemma update_values_frame (st st1 : StrangeAttractor.t) :
  StrangeAttractor.update_values st = Ok st1 ->
  st1 = StrangeAttractor.set_attractors (StrangeAttractor.attractors st1) st.
Proof.
  unfold StrangeAttractor.update_values. destruct st; cbn.
  destruct freeze; cbn.
  - intros [= <-]. reflexivity.
  - intros H. apply rbind_Ok in H as (o & _ & [= <-]). reflexivity.
Qed.

Lemma update_values_frozen (st : StrangeAttractor.t) :
  StrangeAttractor.freeze st = true -> StrangeAttractor.update_values st = Ok st.
Proof. intros H. unfold StrangeAttractor.update_values. rewrite H. reflexivity. Qed.

Lemma update_values_running (st : StrangeAttractor.t) (o : Attractor.t) :
  StrangeAttractor.freeze st = false ->
  StrangeAttractor.a st = Ok o ->
  StrangeAttractor.update_values st
  = Ok (StrangeAttractor.set_attractors
          (<[StrangeAttractor.selected_attractor st := Attractor.step o]>
             (StrangeAttractor.attractors st)) st).
Proof.
  intros Hf Ha. unfold StrangeAttractor.update_values. rewrite Hf, Ha. reflexivity.
Qed.

(** What a call of [update] that returns has done. *)
Lemma update_inv (now : Z) (st st' : StrangeAttractor.t) (out : outputs) :
  StrangeAttractor.update now st = Ok (st', out) ->
  exists st1 o sx sy sz,
    StrangeAttractor.update_values st = Ok st1 /\
    StrangeAttractor.a st1 = Ok o /\
    Attractor.x_scaled o = Ok sx /\
    Attractor.y_scaled o = Ok sy /\
    Attractor.z_scaled o = Ok sz /\
    out = outputs_of (StrangeAttractor.range st) (StrangeAttractor.threshold st) sx sy sz /\
    st' = StrangeAttractor.set_checkpoint now
            (StrangeAttractor.set_gates (cv4 out) (cv5 out) (cv6 out) st1).
Proof.
  unfold StrangeAttractor.update. intros H.
  apply rbind_Ok in H as (st1 & H1 & H).
  apply rbind_Ok in H as (o & Ho & H).
  apply rbind_Ok in H as (sx & Hx & H).
  apply rbind_Ok in H as (sy & Hy & H).
  apply rbind_Ok in H as (sz & Hz & H).
  injection H as <- <-.
  assert (Er : StrangeAttractor.range st1 = StrangeAttractor.range st)
    by (rewrite (update_values_frame _ _ H1); reflexivity).
  assert (Et : StrangeAttractor.threshold st1 = StrangeAttractor.threshold st)
    by (rewrite (update_values_frame _ _ H1); reflexivity).
  exists st1, o, sx, sy, sz.
  do 5 (split; [assumption|]). rewrite <- Er, <- Et. split; reflexivity.
Qed.

(** Conversely, a call of [update] returns as soon as the three scaled
    values can be computed. *)
Lemma update_intro (now : Z) (st st1 : StrangeAttractor.t) (o : Attractor.t)
      (sx sy sz : Q) :
  StrangeAttractor.update_values st = Ok st1 ->
  StrangeAttractor.a st1 = Ok o ->
  Attractor.x_scaled o = Ok sx ->
  Attractor.y_scaled o = Ok sy ->
  Attractor.z_scaled o = Ok sz ->
  let out := outputs_of (StrangeAttractor.range st) (StrangeAttractor.threshold st)
               sx sy sz in
  StrangeAttractor.update now st
  = Ok (StrangeAttractor.set_checkpoint now
          (StrangeAttractor.set_gates (cv4 out) (cv5 out) (cv6 out) st1), out).
Proof.
  intros H1 Ho Hx Hy Hz out. unfold StrangeAttractor.update.
  rewrite H1. cbn [rbind]. rewrite Ho. cbn [rbind].
  rewrite Hx, Hy, Hz. cbn [rbind].
  assert (Er : StrangeAttractor.range st1 = StrangeAttractor.range st)
    by (rewrite (update_values_frame _ _ H1); reflexivity).
  assert (Et : StrangeAttractor.threshold st1 = StrangeAttractor.threshold st)
    by (rewrite (update_values_frame _ _ H1); reflexivity).
  subst out. rewrite <- Er, <- Et. reflexivity.
Qed.

Lemma update_frame (now : Z) (st st' : StrangeAttractor.t) (out : outputs) :
  StrangeAttractor.update now st = Ok (st', out) ->
  StrangeAttractor.selected_attractor st' = StrangeAttractor.selected_attractor st /\
  StrangeAttractor.checkpoint st' = now /\
  StrangeAttractor.period st' = StrangeAttractor.period st /\
  StrangeAttractor.range st' = StrangeAttractor.range st /\
  StrangeAttractor.threshold st' = StrangeAttractor.threshold st /\
  StrangeAttractor.freeze st' = StrangeAttractor.freeze st /\
  StrangeAttractor.show_detail st' = StrangeAttractor.show_detail st.
Proof.
  intros H. apply update_inv in H as (st1 & o & sx & sy & sz & H1 & _ & _ & _ & _ & _ & ->).
  rewrite (update_values_frame _ _ H1). repeat split.
Qed.

(** *** The main loop *)

Lemma sampled_frame (r : reading) (st : StrangeAttractor.t) :
  StrangeAttractor.update_threshold (k2_position r)
    (StrangeAttractor.update_speed (k1_position r) st)
  = StrangeAttractor.set_threshold (k2_position r)
      (StrangeAttractor.set_period
         (StrangeAttractor.period (StrangeAttractor.update_speed (k1_position r) st))
         st).
Proof.
  unfold StrangeAttractor.update_threshold.
  rewrite update_speed_frame at 1. reflexivity.
Qed.

Lemma main_iter_cases (r : reading) (st : StrangeAttractor.t) :
  let st0 := StrangeAttractor.update_threshold (k2_position r)
               (StrangeAttractor.update_speed (k1_position r) st) in
  StrangeAttractor.main_iter r st
  = if Qltb (StrangeAttractor.period st0)
            (inject_Z (ticks_diff (now_check r) (StrangeAttractor.checkpoint st)))
    then do so <- StrangeAttractor.update (now_update r) st0; Ok (fst so, Some (snd so))
    else Ok (st0, None).
Proof.
  cbv zeta. unfold StrangeAttractor.main_iter.
  rewrite sampled_frame. reflexivity.
Qed.

(** A pass of the main loop that returns leaves the selection, the
    range and the freeze flag alone and stores the sampled inputs. *)
Lemma main_iter_frame (r : reading) (st st' : StrangeAttractor.t)
      (w : option outputs) :
  StrangeAttractor.main_iter r st = Ok (st', w) ->
  StrangeAttractor.selected_attractor st' = StrangeAttractor.selected_attractor st /\
  StrangeAttractor.range st' = StrangeAttractor.range st /\
  StrangeAttractor.freeze st' = StrangeAttractor.freeze st /\
  StrangeAttractor.threshold st' = k2_position r /\
  StrangeAttractor.period st'
  = StrangeAttractor.period (StrangeAttractor.update_speed (k1_position r) st).
Proof.
  rewrite main_iter_cases. cbv zeta. rewrite sampled_frame.
  destruct (Qltb _ _).
  - intros H. apply rbind_Ok in H as ([st1 out] & Hu & [= <- _]).
    apply update_frame in Hu as (Hs & _ & Hp & Hr & Ht & Hf & _).
    cbn [fst]. rewrite Hs, Hp, Hr, Ht, Hf. repeat split.
  - intros [= <- _]. repeat split.
Qed.

(** C3 (what the code does).  Every pass of the main loop first stores
    the period and the threshold read from the knobs.  It then calls
    [update] exactly when the time elapsed since the checkpoint is strictly
    greater than that period; when the elapsed time is at most the period
    the pass ends there: no object is stepped and nothing is written to the
    outputs. *)
Theorem main_iter_throttle :
  forall (r : reading) (st : StrangeAttractor.t),
    let st0 := StrangeAttractor.set_threshold (k2_position r)
                 (StrangeAttractor.set_period
                    (StrangeAttractor.period
                       (StrangeAttractor.update_speed (k1_position r) st)) st) in
    let elapsed := inject_Z (ticks_diff (now_check r) (StrangeAttractor.checkpoint st)) in
    (forall st' w, StrangeAttractor.main_iter r st = Ok (st', w) ->
       StrangeAttractor.period st'
       = StrangeAttractor.period (StrangeAttractor.update_speed (k1_position r) st) /\
       StrangeAttractor.threshold st' = k2_position r) /\
    ((StrangeAttractor.period st0 < elapsed)%Q ->
     StrangeAttractor.main_iter r st
     = do so <- StrangeAttractor.update (now_update r) st0; Ok (fst so, Some (snd so))) /\
    ((elapsed <= StrangeAttractor.period st0)%Q ->
     StrangeAttractor.main_iter r st = Ok (st0, None)).
Proof.
  intros r st st0 elapsed. split; [|split].
  - intros st' w H. apply main_iter_frame in H as (_ & _ & _ & Ht & Hp).
    split; assumption.
  - intros H. rewrite main_iter_cases. cbv zeta. rewrite sampled_frame.
    fold st0. fold elapsed. apply Qltb_lt in H. rewrite H. reflexivity.
  - intros H. rewrite main_iter_cases. cbv zeta. rewrite sampled_frame.
    fold st0. fold elapsed. apply Qltb_ge in H. rewrite H. reflexivity.
Qed.

Lemma main_iter_throttle_witness :
  (exists st' out,
     StrangeAttractor.main_iter
       {| k1_position := 50; k2_position := 7; now_check := 101; now_update := 102 |}
       demo = Ok (st', Some out) /\
     StrangeAttractor.checkpoint st' = 102%Z) /\
  (exists st',
     StrangeAttractor.main_iter
       {| k1_position := 50; k2_position := 7; now_check := 99; now_update := 99 |}
       demo = Ok (st', None) /\
     StrangeAttractor.attractors st' = StrangeAttractor.attractors demo /\
     StrangeAttractor.threshold st' = 7%Z).
Proof.
  split.
  - destruct (main_iter_throttle
                {| k1_position := 50; k2_position := 7; now_check := 101; now_update := 102 |}
                demo) as (_ & Tick & _).
    rewrite Tick; [|vm_compute; reflexivity].
    vm_compute. eexists _, _. split; reflexivity.
  - destruct (main_iter_throttle
                {| k1_position := 50; k2_position := 7; now_check := 99; now_update := 99 |}
                demo) as (_ & _ & Idle).
    rewrite Idle; [|vm_compute; discriminate].
    eexists. split; [reflexivity|]. split; reflexivity.
Defined.

(** C3 (as stated, refuted).  With the knob at 50 the period is 100; at
    a pass where exactly 100 ms have elapsed since the checkpoint,
    [now - lastUpdate >= period] holds and yet no tick is computed. *)
Lemma main_iter_throttle_counterexample :
  let r := {| k1_position := 50; k2_position := 20; now_check := 100; now_update := 100 |} in
  let st0 := StrangeAttractor.update_threshold (k2_position r)
               (StrangeAttractor.update_speed (k1_position r) demo) in
  (StrangeAttractor.period st0
   <= inject_Z (now_check r - StrangeAttractor.checkpoint demo))%Q /\
  StrangeAttractor.main_iter r demo = Ok (st0, None) /\
  StrangeAttractor.attractors st0 = StrangeAttractor.attractors demo.
Proof.
  cbv zeta. split; [vm_compute; discriminate|].
  split; vm_compute; reflexivity.
Qed.

(** *** The buttons *)

Lemma b1Pressed_short (held : Z) (st : StrangeAttractor.t) :
  (held <= 300)%Z ->
  StrangeAttractor.b1Pressed held st
  = Ok (StrangeAttractor.set_range (Z.max 1 (StrangeAttractor.range st - 1)) st).
Proof.
  intros H. unfold StrangeAttractor.b1Pressed.
  destruct (Z.ltb_spec 300 held) as [C | _]; [lia|].
  destruct st as [at0 sel cp per rg th fr sd g4 g5 g6]. cbn.
  destruct (Z.ltb_spec (rg - 1) 1) as [C | C]; unfold StrangeAttractor.set_range; cbn;
    do 2 f_equal; lia.
Qed.

Lemma b1Pressed_long (held : Z) (st : StrangeAttractor.t) :
  (300 < held)%Z ->
  StrangeAttractor.attractors st <> [] ->
  StrangeAttractor.b1Pressed held st
  = Ok (StrangeAttractor.set_selected_attractor
          ((StrangeAttractor.selected_attractor st + 1)
             mod length (StrangeAttractor.attractors st))%nat st).
Proof.
  intros H Hne. unfold StrangeAttractor.b1Pressed.
  destruct (Z.ltb_spec 300 held) as [_ | C]; [|lia].
  destruct (StrangeAttractor.attractors st) as [|o l] eqn:E; [congruence|].
  cbn [length].
  set (i := ((StrangeAttractor.selected_attractor st + 1) mod S (length l))%nat).
  assert (Hi : (i < length (o :: l))%nat)
    by (apply Nat.mod_upper_bound; discriminate).
  unfold StrangeAttractor.a. cbn [StrangeAttractor.set_selected_attractor
    StrangeAttractor.attractors StrangeAttractor.selected_attractor].
  rewrite E. destruct (lookup_lt_is_Some_2 (o :: l) i Hi) as [c Hc].
  rewrite Hc. reflexivity.
Qed.

Lemma b2Pressed_short (held : Z) (st : StrangeAttractor.t) :
  (held <= 300)%Z ->
  StrangeAttractor.b2Pressed held st
  = Ok (StrangeAttractor.set_range (Z.min MAX_OUTPUT (StrangeAttractor.range st + 1)) st).
Proof.
  intros H. unfold StrangeAttractor.b2Pressed.
  destruct (Z.ltb_spec 300 held) as [C | _]; [lia|].
  destruct st as [at0 sel cp per rg th fr sd g4 g5 g6]. cbn.
  destruct (Z.ltb_spec MAX_OUTPUT (rg + 1)) as [C | C]; unfold StrangeAttractor.set_range; cbn;
    do 2 f_equal; lia.
Qed.

Lemma b2Pressed_long (held : Z) (st : StrangeAttractor.t) :
  (300 < held)%Z ->
  StrangeAttractor.b2Pressed held st
  = Ok (StrangeAttractor.set_show_detail (negb (StrangeAttractor.show_detail st)) st).
Proof.
  intros H. unfold StrangeAttractor.b2Pressed.
  destruct (Z.ltb_spec 300 held) as [_ | C]; [reflexivity | lia].
Qed.

(** C4 (what the code does).  A release of button 1 is a long press
    exactly when the button was held for more than 300 ms, and a short press
    when it was held for 300 ms or less.  A short press lowers the output
    range by 1, but not below 1; a long press moves the selection to the next
    object of the list, wrapping around, and changes no object. *)
Theorem b1Pressed_classification :
  forall (held : Z) (st : StrangeAttractor.t),
    ((held <= 300)%Z ->
     StrangeAttractor.b1Pressed held st
     = Ok (StrangeAttractor.set_range (Z.max 1 (StrangeAttractor.range st - 1)) st)) /\
    ((300 < held)%Z ->
     StrangeAttractor.attractors st <> [] ->
     exists st',
       StrangeAttractor.b1Pressed held st = Ok st' /\
       st' = StrangeAttractor.set_selected_attractor
               (StrangeAttractor.selected_attractor st') st /\
       StrangeAttractor.selected_attractor st'
       = ((StrangeAttractor.selected_attractor st + 1)
            mod length (StrangeAttractor.attractors st))%nat /\
       StrangeAttractor.attractors st' = StrangeAttractor.attractors st).
Proof.
  intros held st. split.
  - apply b1Pressed_short.
  - intros H Hne. eexists. split; [apply b1Pressed_long; assumption|].
    repeat split.
Qed.

Lemma b1Pressed_classification_witness :
  StrangeAttractor.b1Pressed 120 demo = Ok (StrangeAttractor.set_range 4 demo) /\
  (exists st',
     StrangeAttractor.b1Pressed 301 (StrangeAttractor.set_selected_attractor 3 demo)
     = Ok st' /\
     StrangeAttractor.selected_attractor st' = 0%nat /\
     StrangeAttractor.attractors st' = StrangeAttractor.attractors demo).
Proof.
  split.
  - destruct (b1Pressed_classification 120 demo) as (Short & _).
    rewrite Short; [reflexivity | lia].
  - destruct (b1Pressed_classification 301
                (StrangeAttractor.set_selected_attractor 3 demo)) as (_ & Long).
    destruct Long as (st' & E & _ & Hs & Ha); [lia | discriminate |].
    exists st'. split; [exact E|]. split; [exact Hs | exact Ha].
Defined.

(** C4 (as stated, refuted).  A release after exactly 300 ms is not
    "under 300 ms", yet it is handled as a short press: the range goes from
    5 to 4 and the selection stays.  And a short press at range 1 does not
    decrease the range. *)
Lemma b1Pressed_counterexample :
  StrangeAttractor.b1Pressed 300 demo = Ok (StrangeAttractor.set_range 4 demo) /\
  StrangeAttractor.selected_attractor (StrangeAttractor.set_range 4 demo)
  = StrangeAttractor.selected_attractor demo /\
  StrangeAttractor.b1Pressed 100 (StrangeAttractor.set_range 1 demo)
  = Ok (StrangeAttractor.set_range 1 demo).
Proof. repeat split. Qed.

(** *** The output range *)

Lemma handle_range (e : event) (st st' : StrangeAttractor.t) :
  (1 <= StrangeAttractor.range st <= MAX_OUTPUT)%Z ->
  StrangeAttractor.handle e st = Ok st' ->
  (1 <= StrangeAttractor.range st' <= MAX_OUTPUT)%Z.
Proof.
  intros Hr. unfold MAX_OUTPUT in *. destruct e as [held | held | |]; cbn [StrangeAttractor.handle].
  - destruct (Z_le_gt_dec held 300) as [C | C].
    + rewrite b1Pressed_short by exact C. intros [= <-]. cbn. lia.
    + unfold StrangeAttractor.b1Pressed.
      destruct (Z.ltb_spec 300 held) as [_ | C']; [|lia].
      destruct (length (StrangeAttractor.attractors st)); [discriminate|].
      intros H. apply rbind_Ok in H as (c & _ & [= <-]). exact Hr.
  - destruct (Z_le_gt_dec held 300) as [C | C].
    + rewrite b2Pressed_short by exact C. intros [= <-]. cbn. unfold MAX_OUTPUT. lia.
    + rewrite b2Pressed_long by lia. intros [= <-]. exact Hr.
  - intros [= <-]. exact Hr.
  - intros [= <-]. exact Hr.
Qed.

Lemma react_range (i : StrangeAttractor.input) (st st' : StrangeAttractor.t) :
  (1 <= StrangeAttractor.range st <= MAX_OUTPUT)%Z ->
  StrangeAttractor.react i st = Ok st' ->
  (1 <= StrangeAttractor.range st' <= MAX_OUTPUT)%Z.
Proof.
  intros Hr. destruct i as [r | e]; cbn [StrangeAttractor.react].
  - intros H. apply rbind_Ok in H as ([st1 w] & Hm & [= <-]).
    apply main_iter_frame in Hm as (_ & E & _). cbn [fst]. rewrite E. exact Hr.
  - apply handle_range. exact Hr.
Qed.

Lemma handle_short_press (e : event) (st : StrangeAttractor.t) :
  is_short_press e -> exists st', StrangeAttractor.handle e st = Ok st'.
Proof.
  destruct e as [held | held | |]; cbn; intros H; try contradiction.
  - rewrite b1Pressed_short by exact H. eauto.
  - rewrite b2Pressed_short by exact H. eauto.
Qed.

(** C8. Started with the output range in [1, MAX_OUTPUT], the controller
    keeps it there through every sequence of loop passes and edges, of any
    length and in any order; and a sequence of short presses of the two
    buttons is always handled to the end. *)
Theorem range_stays_clamped :
  forall st : StrangeAttractor.t,
    (1 <= StrangeAttractor.range st <= MAX_OUTPUT)%Z ->
    (forall ins st',
       StrangeAttractor.run ins st = Ok st' ->
       (1 <= StrangeAttractor.range st' <= MAX_OUTPUT)%Z) /\
    (forall evs,
       Forall is_short_press evs ->
       exists st',
         StrangeAttractor.run (map StrangeAttractor.Edge evs) st = Ok st' /\
         (1 <= StrangeAttractor.range st' <= MAX_OUTPUT)%Z).
Proof.
  intros st Hr. split.
  - intros ins. revert st Hr.
    induction ins as [|i ins IH]; intros st Hr st'; cbn [StrangeAttractor.run].
    + intros [= <-]. exact Hr.
    + intros H. apply rbind_Ok in H as (st1 & H1 & H).
      eapply IH; [|exact H]. eapply react_range; eassumption.
  - intros evs. revert st Hr.
    induction evs as [|e evs IH]; intros st Hr Hall; cbn [map StrangeAttractor.run].
    + exists st. split; [reflexivity | exact Hr].
    + inversion Hall as [|? ? He Hrest]; subst.
      destruct (handle_short_press e st He) as (st1 & H1).
      cbn [StrangeAttractor.react]. rewrite H1. cbn [rbind].
      apply IH; [|exact Hrest]. eapply handle_range; eassumption.
Qed.

Lemma range_stays_clamped_witness :
  (1 <= StrangeAttractor.range demo <= MAX_OUTPUT)%Z /\
  exists st',
    StrangeAttractor.run
      (map StrangeAttractor.Edge
         [B2Falling 10; B1Falling 10; B1Falling 20; B1Falling 30; B1Falling 40;
          B1Falling 50; B1Falling 60; B2Falling 70]) demo = Ok st' /\
    (1 <= StrangeAttractor.range st' <= MAX_OUTPUT)%Z.
Proof.
  assert (H : (1 <= StrangeAttractor.range demo <= MAX_OUTPUT)%Z)
    by (vm_compute; split; discriminate).
  split; [exact H|].
  destruct (range_stays_clamped demo H) as (_ & Short).
  apply Short. repeat constructor; cbn; lia.
Defined.

(** *** Freeze *)

Lemma py_div_defined (n n' d s : Q) :
  py_div n d = Ok s -> py_div n' d = Ok (n' / d)%Q.
Proof.
  unfold py_div. destruct (Qeq_bool d 0); [discriminate | reflexivity].
Qed.

(** A step keeps the scaled values computable. *)
Lemma step_scaled_defined (o : Attractor.t) (sx sy sz : Q) :
  Attractor.x_scaled o = Ok sx ->
  Attractor.y_scaled o = Ok sy ->
  Attractor.z_scaled o = Ok sz ->
  exists sx' sy' sz',
    Attractor.x_scaled (Attractor.step o) = Ok sx' /\
    Attractor.y_scaled (Attractor.step o) = Ok sy' /\
    Attractor.z_scaled (Attractor.step o) = Ok sz'.
Proof.
  unfold Attractor.x_scaled, Attractor.y_scaled, Attractor.z_scaled.
  intros Hx Hy Hz. rewrite step_frame. cbn.
  eexists _, _, _. split; [|split]; eapply py_div_defined; eassumption.
Qed.

(** One pass of the main loop while frozen, the threshold knob held. *)
Lemma frozen_pass (r : reading) (st : StrangeAttractor.t) (o : Attractor.t)
      (sx sy sz : Q) :
  StrangeAttractor.freeze st = true ->
  StrangeAttractor.a st = Ok o ->
  Attractor.x_scaled o = Ok sx ->
  Attractor.y_scaled o = Ok sy ->
  Attractor.z_scaled o = Ok sz ->
  k2_position r = StrangeAttractor.threshold st ->
  let out := outputs_of (StrangeAttractor.range st) (StrangeAttractor.threshold st)
               sx sy sz in
  exists st' w,
    StrangeAttractor.main_iter r st = Ok (st', w) /\
    StrangeAttractor.attractors st' = StrangeAttractor.attractors st /\
    StrangeAttractor.selected_attractor st' = StrangeAttractor.selected_attractor st /\
    StrangeAttractor.freeze st' = true /\
    StrangeAttractor.range st' = StrangeAttractor.range st /\
    StrangeAttractor.threshold st' = StrangeAttractor.threshold st /\
    ((w = None /\ gates st' = gates st) \/
     (w = Some out /\ gates st' = (Some (cv4 out), Some (cv5 out), Some (cv6 out)))).
Proof.
  intros Hf Ha Hx Hy Hz Hk out.
  rewrite main_iter_cases. cbv zeta. rewrite sampled_frame.
  set (st0 := StrangeAttractor.set_threshold _ _).
  destruct (Qltb _ _).
  - assert (Hf0 : StrangeAttractor.freeze st0 = true) by exact Hf.
    assert (Ha0 : StrangeAttractor.a st0 = Ok o) by exact Ha.
    rewrite (update_intro (now_update r) st0 st0 o sx sy sz
               (update_values_frozen st0 Hf0) Ha0 Hx Hy Hz).
    cbn [rbind fst snd]. eexists _, _. split; [reflexivity|].
    subst st0. cbn. rewrite Hk. fold out.
    do 3 (split; [first [reflexivity | assumption]|]).
    split; [reflexivity|]. split; [reflexivity|]. right. split; reflexivity.
  - exists st0, None. split; [reflexivity|].
    subst st0. cbn. rewrite Hk.
    do 3 (split; [first [reflexivity | assumption]|]).
    split; [reflexivity|]. split; [reflexivity|]. left. split; reflexivity.
Qed.

Lemma a_congr (st st' : StrangeAttractor.t) :
  StrangeAttractor.attractors st' = StrangeAttractor.attractors st ->
  StrangeAttractor.selected_attractor st' = StrangeAttractor.selected_attractor st ->
  StrangeAttractor.a st' = StrangeAttractor.a st.
Proof. intros Ha Hs. unfold StrangeAttractor.a. rewrite Ha, Hs. reflexivity. Qed.

Lemma frozen_passes (o : Attractor.t) (sx sy sz : Q) (rs : list reading) :
  forall st : StrangeAttractor.t,
    StrangeAttractor.freeze st = true ->
    StrangeAttractor.a st = Ok o ->
    Attractor.x_scaled o = Ok sx ->
    Attractor.y_scaled o = Ok sy ->
    Attractor.z_scaled o = Ok sz ->
    Forall (fun r => k2_position r = StrangeAttractor.threshold st) rs ->
    let out := outputs_of (StrangeAttractor.range st) (StrangeAttractor.threshold st)
                 sx sy sz in
    exists st' ws,
      StrangeAttractor.passes rs st = Ok (st', ws) /\
      StrangeAttractor.attractors st' = StrangeAttractor.attractors st /\
      StrangeAttractor.selected_attractor st' = StrangeAttractor.selected_attractor st /\
      StrangeAttractor.freeze st' = true /\
      StrangeAttractor.range st' = StrangeAttractor.range st /\
      StrangeAttractor.threshold st' = StrangeAttractor.threshold st /\
      Forall (fun w => w = None \/ w = Some out) ws /\
      (gates st' = gates st \/
       gates st' = (Some (cv4 out), Some (cv5 out), Some (cv6 out))).
Proof.
  induction rs as [|r rs IH]; intros st Hf Ha Hx Hy Hz Hall out.
  - exists st, []. cbn. repeat split; auto.
  - inversion Hall as [|? ? Hk Hrest]; subst.
    destruct (frozen_pass r st o sx sy sz Hf Ha Hx Hy Hz Hk)
      as (st1 & w & H1 & Ea & Es & Ef & Er & Et & Hw).
    fold out in Hw.
    destruct (IH st1) as (st' & ws & H' & Ea' & Es' & Ef' & Er' & Et' & Hws & Hg);
      try assumption.
    { rewrite (a_congr st st1 Ea Es). exact Ha. }
    { rewrite Et. exact Hrest. }
    rewrite Er, Et in Hws, Hg. fold out in Hws, Hg.
    exists st', (w :: ws). cbn [StrangeAttractor.passes].
    rewrite H1. cbn [rbind fst snd]. rewrite H'. cbn [rbind fst snd].
    split; [reflexivity|].
    split; [congruence|]. split; [congruence|]. split; [assumption|].
    split; [congruence|]. split; [congruence|]. split.
    + constructor; [|exact Hws]. destruct Hw as [(-> & _) | (-> & _)]; auto.
    + destruct Hg as [Hg | Hg]; [|right; exact Hg].
      destruct Hw as [(_ & Hw) | (_ & Hw)]; [left | right]; congruence.
Qed.

(** C9. While the freeze flag is set, [update_values] steps nothing.
    Through any number of passes of the main loop with the threshold knob
    held, every object keeps its state, every tick writes the same six
    output values and stores the same gates.  Once the falling edge of the
    digital input has cleared the flag, the next [update] moves the
    selected object by exactly one step from the state it was frozen in. *)
Theorem freeze_holds_state :
  forall (st : StrangeAttractor.t) (o : Attractor.t) (sx sy sz : Q),
    StrangeAttractor.freeze st = true ->
    StrangeAttractor.a st = Ok o ->
    Attractor.x_scaled o = Ok sx ->
    Attractor.y_scaled o = Ok sy ->
    Attractor.z_scaled o = Ok sz ->
    let out := outputs_of (StrangeAttractor.range st) (StrangeAttractor.threshold st)
                 sx sy sz in
    StrangeAttractor.update_values st = Ok st /\
    forall rs : list reading,
      Forall (fun r => k2_position r = StrangeAttractor.threshold st) rs ->
      exists st' ws,
        StrangeAttractor.passes rs st = Ok (st', ws) /\
        StrangeAttractor.attractors st' = StrangeAttractor.attractors st /\
        StrangeAttractor.a st' = Ok o /\
        StrangeAttractor.freeze st' = true /\
        Forall (fun w => w = None \/ w = Some out) ws /\
        (gates st' = gates st \/
         gates st' = (Some (cv4 out), Some (cv5 out), Some (cv6 out))) /\
        forall now : Z,
          exists st'' out',
            StrangeAttractor.update now (StrangeAttractor.dinTriggerEnd st')
            = Ok (st'', out') /\
            StrangeAttractor.attractors st''
            = <[StrangeAttractor.selected_attractor st := Attractor.step o]>
                (StrangeAttractor.attractors st) /\
            StrangeAttractor.a st'' = Ok (Attractor.step o).
Proof.
  intros st o sx sy sz Hf Ha Hx Hy Hz out.
  split; [apply update_values_frozen; exact Hf|].
  intros rs Hall.
  destruct (frozen_passes o sx sy sz rs st Hf Ha Hx Hy Hz Hall)
    as (st' & ws & H' & Ea & Es & Ef & _ & _ & Hws & Hg).
  fold out in Hws, Hg.
  assert (Ha' : StrangeAttractor.a st' = Ok o)
    by (rewrite (a_congr st st' Ea Es); exact Ha).
  exists st', ws.
  do 6 (split; [assumption|]).
  intros now.
  set (sr := StrangeAttractor.dinTriggerEnd st').
  assert (Hi : (StrangeAttractor.selected_attractor st
                < length (StrangeAttractor.attractors st))%nat).
  { unfold StrangeAttractor.a in Ha.
    destruct (StrangeAttractor.attractors st !! StrangeAttractor.selected_attractor st)
      as [c|] eqn:E; [|discriminate].
    eapply lookup_lt_Some. exact E. }
  assert (Hv : StrangeAttractor.update_values sr
               = Ok (StrangeAttractor.set_attractors
                       (<[StrangeAttractor.selected_attractor st := Attractor.step o]>
                          (StrangeAttractor.attractors st)) sr)).
  { rewrite (update_values_running sr o); [|reflexivity | exact Ha'].
    subst sr. cbn. rewrite Ea, Es. reflexivity. }
  assert (Hs : StrangeAttractor.a
                 (StrangeAttractor.set_attractors
                    (<[StrangeAttractor.selected_attractor st := Attractor.step o]>
                       (StrangeAttractor.attractors st)) sr)
               = Ok (Attractor.step o)).
  { unfold StrangeAttractor.a. subst sr. cbn. rewrite Es.
    rewrite list_lookup_insert_eq by exact Hi. reflexivity. }
  destruct (step_scaled_defined o sx sy sz Hx Hy Hz) as (sx' & sy' & sz' & Hx' & Hy' & Hz').
  rewrite (update_intro now sr _ (Attractor.step o) sx' sy' sz' Hv Hs Hx' Hy' Hz').
  eexists _, _. split; [reflexivity|]. split; [reflexivity|]. exact Hs.
Qed.

Lemma freeze_holds_state_witness :
  let st := StrangeAttractor.dinTrigger demo in
  exists st' ws out,
    StrangeAttractor.passes
      [ {| k1_position := 50; k2_position := 20; now_check := 150; now_update := 151 |};
        {| k1_position := 80; k2_position := 20; now_check := 160; now_update := 160 |};
        {| k1_position := 90; k2_position := 20; now_check := 200; now_update := 202 |} ]
      st = Ok (st', ws) /\
    StrangeAttractor.attractors st' = StrangeAttractor.attractors st /\
    Forall (fun w => w = None \/ w = Some out) ws.
Proof.
  intros st.
  set (c := Attractor.estimate_ranges 2 Attractor.default_Lorenz).
  assert (Hf : StrangeAttractor.freeze st = true) by reflexivity.
  assert (Ha : StrangeAttractor.a st = Ok c) by (vm_compute; reflexivity).
  assert (Hx : Attractor.x_scaled c
               = Ok (100 * (Attractor.x c - Attractor.x_min c) / Attractor.x_range c)%Q)
    by (apply py_div_nonzero; vm_compute; discriminate).
  assert (Hy : Attractor.y_scaled c
               = Ok (100 * (Attractor.y c - Attractor.y_min c) / Attractor.y_range c)%Q)
    by (apply py_div_nonzero; vm_compute; discriminate).
  assert (Hz : Attractor.z_scaled c
               = Ok (100 * (Attractor.z c - Attractor.z_min c) / Attractor.z_range c)%Q)
    by (apply py_div_nonzero; vm_compute; discriminate).
  destruct (freeze_holds_state st c _ _ _ Hf Ha Hx Hy Hz) as (_ & Hp).
  destruct (Hp [ {| k1_position := 50; k2_position := 20; now_check := 150; now_update := 151 |};
                 {| k1_position := 80; k2_position := 20; now_check := 160; now_update := 160 |};
                 {| k1_position := 90; k2_position := 20; now_check := 200; now_update := 202 |} ])
    as (st' & ws & H & Ea & _ & _ & Hws & _).
  { repeat constructor. }
  exists st', ws. eexists. split; [exact H|]. split; [exact Ea | exact Hws].
Defined.


(** * Further properties of the attractors *)

Lemma Forall_Qle_map {A : Type} (f : A -> Q) (P : Q -> Prop) (l : list A) :
  Forall P (map f l) -> Forall (fun s => P (f s)) l.
Proof. apply List.Forall_map. Qed.

(** The bounds left by a calibration run, from any object: they enclose
    the bounds the run started with and every visited point. *)
Lemma calibrated_bounds_enclose (n : nat) (o : Attractor.t) :
  let c := Attractor.estimate_ranges n o in
  ((Attractor.x_min c <= Attractor.x_min o)%Q /\
   (Attractor.x_max o <= Attractor.x_max c)%Q /\
   Forall (fun s => (Attractor.x_min c <= Attractor.x s <= Attractor.x_max c)%Q)
     (trajectory n o)) /\
  ((Attractor.y_min c <= Attractor.y_min o)%Q /\
   (Attractor.y_max o <= Attractor.y_max c)%Q /\
   Forall (fun s => (Attractor.y_min c <= Attractor.y s <= Attractor.y_max c)%Q)
     (trajectory n o)) /\
  ((Attractor.z_min c <= Attractor.z_min o)%Q /\
   (Attractor.z_max o <= Attractor.z_max c)%Q /\
   Forall (fun s => (Attractor.z_min c <= Attractor.z s <= Attractor.z_max c)%Q)
     (trajectory n o)).
Proof.
  destruct (estimate_ranges_fields n o)
    as (_ & _ & _ & _ & _ & _ & _ & Exx & Eyx & Ezx & Exn & Eyn & Ezn & _).
  destruct (estimate_loop_spec n o)
    as (_ & _ & _ & _ & Lxx & Lyx & Lzx & Lxn & Lyn & Lzn).
  cbv zeta. rewrite Exx, Eyx, Ezx, Exn, Eyn, Ezn, Lxx, Lyx, Lzx, Lxn, Lyn, Lzn.
  split; [|split].
  - destruct (running_max_spec (map Attractor.x (trajectory n o)) (Attractor.x_max o))
      as (Hmax & _).
    destruct (running_min_spec (map Attractor.x (trajectory n o)) (Attractor.x_min o))
      as (Hmin & _).
    inversion Hmax as [|? ? Hm0 Hm]; subst. inversion Hmin as [|? ? Hn0 Hn]; subst.
    split; [exact Hn0|]. split; [exact Hm0|].
    apply Forall_Qle_map in Hm. apply Forall_Qle_map in Hn.
    apply List.Forall_and; assumption.
  - destruct (running_max_spec (map Attractor.y (trajectory n o)) (Attractor.y_max o))
      as (Hmax & _).
    destruct (running_min_spec (map Attractor.y (trajectory n o)) (Attractor.y_min o))
      as (Hmin & _).
    inversion Hmax as [|? ? Hm0 Hm]; subst. inversion Hmin as [|? ? Hn0 Hn]; subst.
    split; [exact Hn0|]. split; [exact Hm0|].
    apply Forall_Qle_map in Hm. apply Forall_Qle_map in Hn.
    apply List.Forall_and; assumption.
  - destruct (running_max_spec (map Attractor.z (trajectory n o)) (Attractor.z_max o))
      as (Hmax & _).
    destruct (running_min_spec (map Attractor.z (trajectory n o)) (Attractor.z_min o))
      as (Hmin & _).
    inversion Hmax as [|? ? Hm0 Hm]; subst. inversion Hmin as [|? ? Hn0 Hn]; subst.
    split; [exact Hn0|]. split; [exact Hm0|].
    apply Forall_Qle_map in Hm. apply Forall_Qle_map in Hn.
    apply List.Forall_and; assumption.
Qed.

(** X1. After a calibration run on a freshly constructed object, the
    bounds of every axis enclose the initial point and every point the run
    visited. *)
Theorem calibration_bounds_contain_trajectory :
  forall (steps : nat) (point : Q * Q * Q) (dt : Q) (name : string)
         (fam : Attractor.family),
    let o := Attractor.init point dt name fam in
    let c := Attractor.estimate_ranges steps o in
    Forall (fun s =>
              (Attractor.x_min c <= Attractor.x s <= Attractor.x_max c)%Q /\
              (Attractor.y_min c <= Attractor.y s <= Attractor.y_max c)%Q /\
              (Attractor.z_min c <= Attractor.z s <= Attractor.z_max c)%Q)
           (o :: trajectory steps o).
Proof.
  intros steps [[px py] pz] dt name fam o c.
  destruct (calibrated_bounds_enclose steps o)
    as ((Xn & Xm & Xt) & (Yn & Ym & Yt) & (Zn & Zm & Zt)).
  fold c in Xn, Xm, Xt, Yn, Ym, Yt, Zn, Zm, Zt.
  constructor.
  - repeat split; assumption.
  - apply List.Forall_and; [exact Xt|]. apply List.Forall_and; assumption.
Qed.

Lemma iter_step_same_but_bounds (k : nat) (o1 o2 : Attractor.t) :
  same_but_bounds o1 o2 ->
  same_but_bounds (Nat.iter k Attractor.step o1) (Nat.iter k Attractor.step o2).
Proof.
  intros H. induction k as [|k IH]; [exact H|].
  cbn [Nat.iter nat_rect]. apply step_same_but_bounds. exact IH.
Qed.

Lemma iter_step_minmax (k : nat) (o : Attractor.t) :
  let o' := Nat.iter k Attractor.step o in
  Attractor.x_min o' = Attractor.x_min o /\
  Attractor.y_min o' = Attractor.y_min o /\
  Attractor.z_min o' = Attractor.z_min o /\
  Attractor.x_max o' = Attractor.x_max o /\
  Attractor.y_max o' = Attractor.y_max o /\
  Attractor.z_max o' = Attractor.z_max o.
Proof.
  induction k as [|k IH]; [repeat split|].
  cbn [Nat.iter nat_rect]. cbv zeta. rewrite step_frame. exact IH.
Qed.

(** The [k]-th point of a run is on its trajectory. *)
Lemma trajectory_iter (n : nat) :
  forall (o : Attractor.t) (k : nat),
    (k < n)%nat -> In (Nat.iter (S k) Attractor.step o) (trajectory n o).
Proof.
  induction n as [|n IH]; intros o k Hk; [lia|].
  cbn [trajectory]. destruct k as [|k].
  - left. reflexivity.
  - right. rewrite Nat.iter_succ_r. apply IH. lia.
Qed.

Lemma calibration_bounds_fresh_aux (n : nat) (o : Attractor.t) :
  (Attractor.x_min o, Attractor.x_max o, Attractor.y_min o, Attractor.y_max o,
   Attractor.z_min o, Attractor.z_max o)
  = (Attractor.x o, Attractor.x o, Attractor.y o, Attractor.y o,
     Attractor.z o, Attractor.z o) ->
  let c := Attractor.estimate_ranges n o in
  Forall (fun s =>
            (Attractor.x_min c <= Attractor.x s <= Attractor.x_max c)%Q /\
            (Attractor.y_min c <= Attractor.y s <= Attractor.y_max c)%Q /\
            (Attractor.z_min c <= Attractor.z s <= Attractor.z_max c)%Q)
         (o :: trajectory n o).
Proof.
  intros [= Exn Exm Eyn Eym Ezn Ezm] c.
  destruct (calibrated_bounds_enclose n o)
    as ((Xn & Xm & Xt) & (Yn & Ym & Yt) & (Zn & Zm & Zt)).
  fold c in Xn, Xm, Xt, Yn, Ym, Yt, Zn, Zm, Zt.
  rewrite Exn in Xn. rewrite Exm in Xm. rewrite Eyn in Yn. rewrite Eym in Ym.
  rewrite Ezn in Zn. rewrite Ezm in Zm.
  constructor.
  - repeat split; assumption.
  - apply List.Forall_and; [exact Xt|]. apply List.Forall_and; assumption.
Qed.

(** X2. After calibrating a freshly constructed object with [steps]
    steps, the running object retraces the calibrated trajectory: at the
    reset point and after each of the first [steps] steps every coordinate
    lies within the calibrated minimum and maximum of its axis, and the
    object still carries the calibrated bounds and ranges. *)
Theorem replay_within_calibrated_bounds :
  forall (steps : nat) (point : Q * Q * Q) (dt : Q) (name : string)
         (fam : Attractor.family) (k : nat),
    let c := Attractor.estimate_ranges steps (Attractor.init point dt name fam) in
    let live := Nat.iter k Attractor.step c in
    (k <= steps)%nat ->
    (Attractor.x_min c <= Attractor.x live <= Attractor.x_max c)%Q /\
    (Attractor.y_min c <= Attractor.y live <= Attractor.y_max c)%Q /\
    (Attractor.z_min c <= Attractor.z live <= Attractor.z_max c)%Q /\
    (Attractor.x_min live, Attractor.x_max live, Attractor.x_range live)
    = (Attractor.x_min c, Attractor.x_max c, Attractor.x_range c) /\
    (Attractor.y_min live, Attractor.y_max live, Attractor.y_range live)
    = (Attractor.y_min c, Attractor.y_max c, Attractor.y_range c) /\
    (Attractor.z_min live, Attractor.z_max live, Attractor.z_range live)
    = (Attractor.z_min c, Attractor.z_max c, Attractor.z_range c).
Proof.
  intros steps [[px py] pz] dt name fam k c live Hk.
  set (o := Attractor.init (px, py, pz) dt name fam) in *.
  assert (Hin : In (Nat.iter k Attractor.step o) (o :: trajectory steps o)).
  { destruct k as [|k]; [left; reflexivity|]. right. apply trajectory_iter. lia. }
  assert (Hall := calibration_bounds_fresh_aux steps o (eq_refl _)).
  fold c in Hall.
  pose proof (proj1 (List.Forall_forall _ _) Hall _ Hin) as (Bx & By & Bz).
  assert (Hs : same_but_bounds live (Nat.iter k Attractor.step o)).
  { apply iter_step_same_but_bounds.
    apply estimate_ranges_same_but_bounds_fresh. reflexivity. }
  destruct Hs as (_ & Sx & Sy & Sz & _).
  rewrite <- Sx in Bx. rewrite <- Sy in By. rewrite <- Sz in Bz.
  destruct (iter_step_minmax k c) as (Mxn & Myn & Mzn & Mxx & Myx & Mzx).
  destruct (iter_step_bounds k c) as (Rx & Ry & Rz).
  fold live in Mxn, Myn, Mzn, Mxx, Myx, Mzx, Rx, Ry, Rz.
  split; [exact Bx|]. split; [exact By|]. split; [exact Bz|].
  rewrite Mxn, Myn, Mzn, Mxx, Myx, Mzx, Rx, Ry, Rz. repeat split.
Qed.

Lemma replay_within_calibrated_bounds_witness :
  let c := Attractor.estimate_ranges 3
             (Attractor.init (0, 1, 1.05)%Q 0.01%Q "Lorenz"
                (Attractor.Lorenz 10 28 2.667)) in
  (Attractor.x_min c <= Attractor.x (Nat.iter 2 Attractor.step c) <= Attractor.x_max c)%Q.
Proof.
  intros c.
  destruct (replay_within_calibrated_bounds 3 (0, 1, 1.05)%Q 0.01%Q "Lorenz"
              (Attractor.Lorenz 10 28 2.667) 2) as (Hx & _); [lia|].
  exact Hx.
Defined.

(** X3. A calibration run on a freshly constructed object leaves a zero
    range on an axis exactly when the coordinate never left its initial value
    during the run. *)
Theorem degenerate_iff_axis_constant :
  forall (steps : nat) (point : Q * Q * Q) (dt : Q) (name : string)
         (fam : Attractor.family),
    let o := Attractor.init point dt name fam in
    let c := Attractor.estimate_ranges steps o in
    ((Attractor.x_range c == 0)%Q <->
     Forall (fun s => (Attractor.x s == Attractor.x o)%Q) (trajectory steps o)) /\
    ((Attractor.y_range c == 0)%Q <->
     Forall (fun s => (Attractor.y s == Attractor.y o)%Q) (trajectory steps o)) /\
    ((Attractor.z_range c == 0)%Q <->
     Forall (fun s => (Attractor.z s == Attractor.z o)%Q) (trajectory steps o)).
Proof.
  intros steps [[px py] pz] dt name fam o c.
  assert (Hall := calibration_bounds_fresh_aux steps o (eq_refl _)).
  fold c in Hall.
  destruct (estimate_ranges_fields steps o)
    as (_ & _ & _ & _ & _ & _ & _ & Exx & Eyx & Ezx & Exn & Eyn & Ezn & Cx & Cy & Cz).
  destruct (estimate_loop_spec steps o)
    as (_ & _ & _ & _ & Lxx & Lyx & Lzx & Lxn & Lyn & Lzn).
  fold c in Exx, Eyx, Ezx, Exn, Eyn, Ezn, Cx, Cy, Cz.
  rewrite Lxx in Exx. rewrite Lyx in Eyx. rewrite Lzx in Ezx.
  rewrite Lxn in Exn. rewrite Lyn in Eyn. rewrite Lzn in Ezn.
  inversion Hall as [|? ? (Ox & Oy & Oz) Ht]; subst.
  rewrite Cx, Cy, Cz.
  split; [|split]; split.
  - intros Hz. eapply List.Forall_impl; [|exact Ht].
    intros s (Bx & _). cbv beta in Bx. lra.
  - intros Hc.
    destruct (running_max_spec (map Attractor.x (trajectory steps o)) (Attractor.x o))
      as (_ & Imax).
    destruct (running_min_spec (map Attractor.x (trajectory steps o)) (Attractor.x o))
      as (_ & Imin).
    assert (Hv : forall v, In v (Attractor.x o :: map Attractor.x (trajectory steps o)) ->
                           (v == Attractor.x o)%Q).
    { intros v [<- | Hv]; [reflexivity|].
      apply List.in_map_iff in Hv as (s & <- & Hs).
      exact (proj1 (List.Forall_forall _ _) Hc s Hs). }
    pose proof (Hv _ Imax) as Emax. pose proof (Hv _ Imin) as Emin.
    rewrite Exx, Exn.
    change (Attractor.x_max o) with (Attractor.x o).
    change (Attractor.x_min o) with (Attractor.x o). lra.
  - intros Hz. eapply List.Forall_impl; [|exact Ht].
    intros s (_ & By & _). cbv beta in By. lra.
  - intros Hc.
    destruct (running_max_spec (map Attractor.y (trajectory steps o)) (Attractor.y o))
      as (_ & Imax).
    destruct (running_min_spec (map Attractor.y (trajectory steps o)) (Attractor.y o))
      as (_ & Imin).
    assert (Hv : forall v, In v (Attractor.y o :: map Attractor.y (trajectory steps o)) ->
                           (v == Attractor.y o)%Q).
    { intros v [<- | Hv]; [reflexivity|].
      apply List.in_map_iff in Hv as (s & <- & Hs).
      exact (proj1 (List.Forall_forall _ _) Hc s Hs). }
    pose proof (Hv _ Imax) as Emax. pose proof (Hv _ Imin) as Emin.
    rewrite Eyx, Eyn.
    change (Attractor.y_max o) with (Attractor.y o).
    change (Attractor.y_min o) with (Attractor.y o). lra.
  - intros Hz. eapply List.Forall_impl; [|exact Ht].
    intros s (_ & _ & Bz). cbv beta in Bz. lra.
  - intros Hc.
    destruct (running_max_spec (map Attractor.z (trajectory steps o)) (Attractor.z o))
      as (_ & Imax).
    destruct (running_min_spec (map Attractor.z (trajectory steps o)) (Attractor.z o))
      as (_ & Imin).
    assert (Hv : forall v, In v (Attractor.z o :: map Attractor.z (trajectory steps o)) ->
                           (v == Attractor.z o)%Q).
    { intros v [<- | Hv]; [reflexivity|].
      apply List.in_map_iff in Hv as (s & <- & Hs).
      exact (proj1 (List.Forall_forall _ _) Hc s Hs). }
    pose proof (Hv _ Imax) as Emax. pose proof (Hv _ Imin) as Emin.
    rewrite Ezx, Ezn.
    change (Attractor.z_max o) with (Attractor.z o).
    change (Attractor.z_min o) with (Attractor.z o). lra.
Qed.

Lemma estimate_loop_snoc (n : nat) :
  forall o, Attractor.estimate_loop (S n) o
            = Attractor.estimate_body (Attractor.estimate_loop n o).
Proof.
  induction n as [|n IH]; intros o; [reflexivity|].
  change (Attractor.estimate_loop (S (S n)) o)
    with (Attractor.estimate_loop (S n) (Attractor.estimate_body o)).
  rewrite IH. reflexivity.
Qed.

Lemma estimate_loop_widens (n : nat) (o : Attractor.t) :
  let l := Attractor.estimate_loop n o in
  let l' := Attractor.estimate_loop (S n) o in
  (Attractor.x_min l' <= Attractor.x_min l)%Q /\
  (Attractor.x_max l <= Attractor.x_max l')%Q /\
  (Attractor.y_min l' <= Attractor.y_min l)%Q /\
  (Attractor.y_max l <= Attractor.y_max l')%Q /\
  (Attractor.z_min l' <= Attractor.z_min l)%Q /\
  (Attractor.z_max l <= Attractor.z_max l')%Q.
Proof.
  cbv zeta. rewrite estimate_loop_snoc.
  destruct (estimate_body_fields (Attractor.estimate_loop n o))
    as (_ & _ & _ & _ & Bxx & Byx & Bzx & Bxn & Byn & Bzn).
  rewrite Bxx, Byx, Bzx, Bxn, Byn, Bzn.
  repeat split; first [apply py_max_ub | apply py_min_lb].
Qed.

Lemma estimate_ranges_monotone (n m : nat) (o : Attractor.t) :
  (n <= m)%nat ->
  let cn := Attractor.estimate_ranges n o in
  let cm := Attractor.estimate_ranges m o in
  (Attractor.x_min cm <= Attractor.x_min cn)%Q /\
  (Attractor.x_max cn <= Attractor.x_max cm)%Q /\
  (Attractor.y_min cm <= Attractor.y_min cn)%Q /\
  (Attractor.y_max cn <= Attractor.y_max cm)%Q /\
  (Attractor.z_min cm <= Attractor.z_min cn)%Q /\
  (Attractor.z_max cn <= Attractor.z_max cm)%Q.
Proof.
  intros Hle. cbv zeta. induction Hle as [|m Hle IH].
  - repeat split; apply Qle_refl.
  - destruct IH as (I1 & I2 & I3 & I4 & I5 & I6).
    destruct (estimate_loop_widens m o) as (W1 & W2 & W3 & W4 & W5 & W6).
    cbv zeta in W1, W2, W3, W4, W5, W6.
    destruct (estimate_ranges_fields m o)
      as (_ & _ & _ & _ & _ & _ & _ & Axx & Ayx & Azx & Axn & Ayn & Azn & _).
    destruct (estimate_ranges_fields (S m) o)
      as (_ & _ & _ & _ & _ & _ & _ & Bxx & Byx & Bzx & Bxn & Byn & Bzn & _).
    rewrite Axx, Ayx, Azx, Axn, Ayn, Azn in *.
    rewrite Bxx, Byx, Bzx, Bxn, Byn, Bzn.
    repeat split; lra.
Qed.

(** X4. A longer calibration run never narrows the result: with more
    steps from the same object every minimum is at most, and every maximum
    and range at least, what the shorter run gives. *)
Theorem longer_calibration_widens :
  forall (n m : nat) (o : Attractor.t),
    (n <= m)%nat ->
    let cn := Attractor.estimate_ranges n o in
    let cm := Attractor.estimate_ranges m o in
    ((Attractor.x_min cm <= Attractor.x_min cn)%Q /\
     (Attractor.x_max cn <= Attractor.x_max cm)%Q /\
     (Attractor.x_range cn <= Attractor.x_range cm)%Q) /\
    ((Attractor.y_min cm <= Attractor.y_min cn)%Q /\
     (Attractor.y_max cn <= Attractor.y_max cm)%Q /\
     (Attractor.y_range cn <= Attractor.y_range cm)%Q) /\
    ((Attractor.z_min cm <= Attractor.z_min cn)%Q /\
     (Attractor.z_max cn <= Attractor.z_max cm)%Q /\
     (Attractor.z_range cn <= Attractor.z_range cm)%Q).
Proof.
  intros n m o Hle cn cm.
  destruct (estimate_ranges_monotone n m o Hle) as (H1 & H2 & H3 & H4 & H5 & H6).
  fold cn in H1, H2, H3, H4, H5, H6. fold cm in H1, H2, H3, H4, H5, H6.
  destruct (estimate_ranges_fields n o)
    as (_ & _ & _ & _ & _ & _ & _ & _ & _ & _ & _ & _ & _ & Nx & Ny & Nz).
  destruct (estimate_ranges_fields m o)
    as (_ & _ & _ & _ & _ & _ & _ & _ & _ & _ & _ & _ & _ & Mx & My & Mz).
  fold cn in Nx, Ny, Nz. fold cm in Mx, My, Mz.
  rewrite Nx, Ny, Nz, Mx, My, Mz.
  repeat split; lra.
Qed.

Lemma longer_calibration_widens_witness :
  (Attractor.x_range (Attractor.estimate_ranges 1 Attractor.default_Rossler)
   <= Attractor.x_range (Attractor.estimate_ranges 3 Attractor.default_Rossler))%Q.
Proof.
  destruct (longer_calibration_widens 1 3 Attractor.default_Rossler) as ((_ & _ & H) & _);
    [lia | exact H].
Defined.

(** *** Rest at the origin *)

Lemma resting_step (o : Attractor.t) : resting o -> resting (Attractor.step o).
Proof.
  destruct o as [ini x y z dt nm xmn ymn zmn xmx ymx zmx xr yr zr fam].
  unfold resting. cbn. intros (Hf & Hx & Hy & Hz).
  destruct fam; cbn in *; try discriminate;
    (split; [reflexivity|]); rewrite Hx, Hy, Hz;
    repeat split; first [reflexivity | ring].
Qed.

Lemma resting_iter (k : nat) (o : Attractor.t) :
  resting o -> resting (Nat.iter k Attractor.step o).
Proof.
  intros H. induction k as [|k IH]; [exact H|].
  cbn [Nat.iter nat_rect]. apply resting_step. exact IH.
Qed.

Lemma resting_trajectory (n : nat) :
  forall o, resting o -> Forall resting (trajectory n o).
Proof.
  induction n as [|n IH]; intros o H; [constructor|].
  cbn [trajectory]. apply resting_step in H. constructor; [exact H | apply IH; exact H].
Qed.

Lemma running_extrema_constant (vs : list Q) (start : Q) :
  Forall (fun v => (v == start)%Q) vs ->
  (running_max vs start == start)%Q /\ (running_min vs start == start)%Q.
Proof.
  intros Hc.
  destruct (running_max_spec vs start) as (_ & Imax).
  destruct (running_min_spec vs start) as (_ & Imin).
  assert (Hv : forall v, In v (start :: vs) -> (v == start)%Q).
  { intros v [<- | Hv]; [reflexivity|].
    exact (proj1 (List.Forall_forall _ _) Hc v Hv). }
  split; apply Hv; assumption.
Qed.

(** X5. The origin is a rest point of the Lorenz and of the Pan-Xu-Zhou
    system (and of the base class), for every choice of parameters and of
    [dt]: an object there stays there through any number of steps.  An object
    constructed there therefore calibrates to a zero range on all three axes,
    and each of its scaled values raises [ZeroDivisionError]. *)
Theorem origin_is_rest_point :
  (forall (o : Attractor.t) (k : nat),
     resting o -> resting (Nat.iter k Attractor.step o)) /\
  (forall (steps : nat) (point : Q * Q * Q) (dt : Q) (name : string)
          (fam : Attractor.family),
     let o := Attractor.init point dt name fam in
     let c := Attractor.estimate_ranges steps o in
     resting o ->
     ((Attractor.x_range c == 0)%Q /\
      (Attractor.y_range c == 0)%Q /\
      (Attractor.z_range c == 0)%Q) /\
     Attractor.x_scaled c = Raise ZeroDivisionError /\
     Attractor.y_scaled c = Raise ZeroDivisionError /\
     Attractor.z_scaled c = Raise ZeroDivisionError).
Proof.
  split; [intros o k; apply resting_iter|].
  intros steps [[px py] pz] dt name fam o c Hr.
  assert (Ht := resting_trajectory steps o Hr).
  destruct Hr as (_ & Hx & Hy & Hz).
  destruct (estimate_ranges_fields steps o)
    as (_ & _ & _ & _ & _ & _ & _ & Exx & Eyx & Ezx & Exn & Eyn & Ezn & Cx & Cy & Cz).
  destruct (estimate_loop_spec steps o)
    as (_ & _ & _ & _ & Lxx & Lyx & Lzx & Lxn & Lyn & Lzn).
  fold c in Exx, Eyx, Ezx, Exn, Eyn, Ezn, Cx, Cy, Cz.
  rewrite Lxx in Exx. rewrite Lyx in Eyx. rewrite Lzx in Ezx.
  rewrite Lxn in Exn. rewrite Lyn in Eyn. rewrite Lzn in Ezn.
  destruct (running_extrema_constant (map Attractor.x (trajectory steps o)) (Attractor.x o))
    as (Xa & Xb).
  { apply List.Forall_map. eapply List.Forall_impl; [|exact Ht].
    intros s (_ & Sx & _). cbv beta. rewrite Sx, Hx. reflexivity. }
  destruct (running_extrema_constant (map Attractor.y (trajectory steps o)) (Attractor.y o))
    as (Ya & Yb).
  { apply List.Forall_map. eapply List.Forall_impl; [|exact Ht].
    intros s (_ & _ & Sy & _). cbv beta. rewrite Sy, Hy. reflexivity. }
  destruct (running_extrema_constant (map Attractor.z (trajectory steps o)) (Attractor.z o))
    as (Za & Zb).
  { apply List.Forall_map. eapply List.Forall_impl; [|exact Ht].
    intros s (_ & _ & _ & Sz). cbv beta. rewrite Sz, Hz. reflexivity. }
  assert (Rx : (Attractor.x_range c == 0)%Q).
  { rewrite Cx, Exx, Exn.
    change (Attractor.x_max o) with (Attractor.x o).
    change (Attractor.x_min o) with (Attractor.x o). lra. }
  assert (Ry : (Attractor.y_range c == 0)%Q).
  { rewrite Cy, Eyx, Eyn.
    change (Attractor.y_max o) with (Attractor.y o).
    change (Attractor.y_min o) with (Attractor.y o). lra. }
  assert (Rz : (Attractor.z_range c == 0)%Q).
  { rewrite Cz, Ezx, Ezn.
    change (Attractor.z_max o) with (Attractor.z o).
    change (Attractor.z_min o) with (Attractor.z o). lra. }
  split; [repeat split; assumption|].
  split; [|split]; apply py_div_zero; assumption.
Qed.

Lemma origin_is_rest_point_witness :
  resting (Nat.iter 5 Attractor.step Lorenz_at_origin) /\
  Attractor.x_scaled (Attractor.estimate_ranges 4 Lorenz_at_origin)
  = Raise ZeroDivisionError.
Proof.
  assert (H : resting Lorenz_at_origin) by (repeat split).
  destruct origin_is_rest_point as (Hk & Hc).
  split; [apply Hk; exact H|].
  destruct (Hc 4%nat (0, 0, 0)%Q 0.01%Q "Lorenz"%string
              (Attractor.Lorenz 10 28 2.667) H) as (_ & Hx & _).
  exact Hx.
Defined.


(** * Further properties of the controller *)

(** X6. The constructor raises [IndexError] on an empty list (the random
    choice has nothing to choose from) and succeeds on every other list, for
    any number of calibration steps: every object is calibrated, the
    selection points into the list, and the other attributes have their
    fixed initial values. *)
Theorem constructor_outcome :
  forall steps seed : nat,
    StrangeAttractor.init_with steps seed [] = Raise IndexError /\
    forall (o : Attractor.t) (rest : list Attractor.t),
      exists st,
        StrangeAttractor.init_with steps seed (o :: rest) = Ok st /\
        StrangeAttractor.attractors st
        = map (Attractor.estimate_ranges steps) (o :: rest) /\
        selection_valid st /\
        StrangeAttractor.checkpoint st = 0%Z /\
        StrangeAttractor.period st = 100%Q /\
        StrangeAttractor.range st = MAX_OUTPUT /\
        StrangeAttractor.threshold st = 20%Z /\
        StrangeAttractor.freeze st = false /\
        StrangeAttractor.show_detail st = true /\
        gates st = (None, None, None).
Proof.
  intros steps seed. split; [reflexivity|].
  intros o rest. unfold StrangeAttractor.init_with.
  rewrite length_map.
  set (l := o :: rest). set (n := length l).
  assert (Hn : (seed mod n < n)%nat) by (apply Nat.mod_upper_bound; discriminate).
  change (choice_range seed n) with (@Ok nat (seed mod n)%nat).
  cbn [rbind]. unfold StrangeAttractor.a. cbn [StrangeAttractor.attractors
    StrangeAttractor.selected_attractor].
  destruct (lookup_lt_is_Some_2 (map (Attractor.estimate_ranges steps) l) (seed mod n)%nat)
    as [c Hc]; [rewrite length_map; exact Hn|].
  rewrite Hc. cbn [rbind]. eexists. split; [reflexivity|].
  split; [reflexivity|]. split; [|repeat split].
  unfold selection_valid. cbn. rewrite length_map. exact Hn.
Qed.

(** *** The selection *)

Lemma a_valid (st : StrangeAttractor.t) :
  selection_valid st -> exists o, StrangeAttractor.a st = Ok o.
Proof.
  intros H. unfold StrangeAttractor.a.
  destruct (lookup_lt_is_Some_2 _ _ H) as [o Ho]. rewrite Ho. eauto.
Qed.

(** What a call of [update_values] that returns has done to the list. *)
Lemma update_values_cases (st st1 : StrangeAttractor.t) :
  StrangeAttractor.update_values st = Ok st1 ->
  (StrangeAttractor.freeze st = true /\ st1 = st) \/
  (StrangeAttractor.freeze st = false /\
   exists o, StrangeAttractor.a st = Ok o /\
             st1 = StrangeAttractor.set_attractors
                     (<[StrangeAttractor.selected_attractor st := Attractor.step o]>
                        (StrangeAttractor.attractors st)) st).
Proof.
  unfold StrangeAttractor.update_values.
  destruct (StrangeAttractor.freeze st).
  - intros [= <-]. left. split; reflexivity.
  - intros H. apply rbind_Ok in H as (o & Ho & [= <-]).
    right. split; [reflexivity|]. exists o. split; [exact Ho | reflexivity].
Qed.

Lemma update_values_valid (st st1 : StrangeAttractor.t) :
  StrangeAttractor.update_values st = Ok st1 ->
  StrangeAttractor.selected_attractor st1 = StrangeAttractor.selected_attractor st /\
  length (StrangeAttractor.attractors st1) = length (StrangeAttractor.attractors st).
Proof.
  intros H. apply update_values_cases in H as [(_ & ->) | (_ & o & _ & ->)].
  - split; reflexivity.
  - split; [reflexivity|]. cbn. apply length_insert.
Qed.

Lemma update_valid (now : Z) (st st' : StrangeAttractor.t) (out : outputs) :
  StrangeAttractor.update now st = Ok (st', out) ->
  StrangeAttractor.selected_attractor st' = StrangeAttractor.selected_attractor st /\
  length (StrangeAttractor.attractors st') = length (StrangeAttractor.attractors st).
Proof.
  intros H. apply update_inv in H as (st1 & o & sx & sy & sz & H1 & _ & _ & _ & _ & _ & ->).
  apply update_values_valid in H1. exact H1.
Qed.

Lemma b1Pressed_valid (held : Z) (st : StrangeAttractor.t) :
  selection_valid st ->
  exists st',
    StrangeAttractor.b1Pressed held st = Ok st' /\
    selection_valid st' /\
    StrangeAttractor.attractors st' = StrangeAttractor.attractors st.
Proof.
  intros Hv. destruct (Z_le_gt_dec held 300) as [C | C].
  - rewrite b1Pressed_short by exact C. eexists. split; [reflexivity|].
    split; [exact Hv | reflexivity].
  - rewrite b1Pressed_long; [|lia|].
    + eexists. split; [reflexivity|]. split; [|reflexivity].
      unfold selection_valid. cbn. apply Nat.mod_upper_bound.
      unfold selection_valid in Hv. lia.
    + intros E. unfold selection_valid in Hv. rewrite E in Hv. cbn in Hv. lia.
Qed.

Lemma b2Pressed_valid (held : Z) (st : StrangeAttractor.t) :
  exists st',
    StrangeAttractor.b2Pressed held st = Ok st' /\
    StrangeAttractor.selected_attractor st' = StrangeAttractor.selected_attractor st /\
    StrangeAttractor.attractors st' = StrangeAttractor.attractors st.
Proof.
  destruct (Z_le_gt_dec held 300) as [C | C].
  - rewrite b2Pressed_short by exact C. eexists. repeat split.
  - rewrite b2Pressed_long by lia. eexists. repeat split.
Qed.

Lemma handle_valid (e : event) (st : StrangeAttractor.t) :
  selection_valid st ->
  exists st',
    StrangeAttractor.handle e st = Ok st' /\
    selection_valid st' /\
    StrangeAttractor.attractors st' = StrangeAttractor.attractors st.
Proof.
  intros Hv. destruct e as [held | held | |]; cbn [StrangeAttractor.handle].
  - apply b1Pressed_valid. exact Hv.
  - destruct (b2Pressed_valid held st) as (st' & H & Es & Ea).
    exists st'. split; [exact H|]. split; [|exact Ea].
    unfold selection_valid. rewrite Es, Ea. exact Hv.
  - eexists. split; [reflexivity|]. split; [exact Hv | reflexivity].
  - eexists. split; [reflexivity|]. split; [exact Hv | reflexivity].
Qed.

Lemma react_valid (i : StrangeAttractor.input) (st st' : StrangeAttractor.t) :
  selection_valid st ->
  StrangeAttractor.react i st = Ok st' ->
  selection_valid st' /\
  length (StrangeAttractor.attractors st') = length (StrangeAttractor.attractors st).
Proof.
  intros Hv. destruct i as [r | e]; cbn [StrangeAttractor.react].
  - intros H. apply rbind_Ok in H as ([st1 w] & Hm & [= <-]). cbn [fst].
    rewrite main_iter_cases in Hm. cbv zeta in Hm. rewrite sampled_frame in Hm.
    destruct (Qltb _ _).
    + apply rbind_Ok in Hm as ([st2 out] & Hu & [= <- _]).
      apply update_valid in Hu as (Es & El). cbn in Es, El.
      unfold selection_valid. rewrite Es, El. split; [exact Hv | reflexivity].
    + injection Hm as <- _. split; [exact Hv | reflexivity].
  - intros H. destruct (handle_valid e st Hv) as (st1 & H1 & Hv1 & Ea).
    rewrite H1 in H. injection H as <-. split; [exact Hv1 | rewrite Ea; reflexivity].
Qed.

(** X7. Once the selection points into the list (as the constructor
    leaves it), it does so after every sequence of loop passes and edges that
    runs to its end, and the list keeps its length.  The edge handlers
    themselves never raise from such a state: every sequence of button and
    digital-input edges is handled to the end and leaves the list of objects
    as it was. *)
Theorem selection_stays_valid :
  forall st : StrangeAttractor.t,
    selection_valid st ->
    (forall (ins : list StrangeAttractor.input) (st' : StrangeAttractor.t),
       StrangeAttractor.run ins st = Ok st' ->
       selection_valid st' /\
       length (StrangeAttractor.attractors st') = length (StrangeAttractor.attractors st)) /\
    (forall evs : list event,
       exists st',
         StrangeAttractor.run (map StrangeAttractor.Edge evs) st = Ok st' /\
         selection_valid st' /\
         StrangeAttractor.attractors st' = StrangeAttractor.attractors st).
Proof.
  intros st Hv. split.
  - intros ins. revert st Hv.
    induction ins as [|i ins IH]; intros st Hv st' H; cbn [StrangeAttractor.run] in H.
    + injection H as <-. split; [exact Hv | reflexivity].
    + apply rbind_Ok in H as (st1 & H1 & H).
      destruct (react_valid i st st1 Hv H1) as (Hv1 & El).
      destruct (IH st1 Hv1 st' H) as (Hv' & El'). split; [exact Hv' | congruence].
  - intros evs. revert st Hv.
    induction evs as [|e evs IH]; intros st Hv; cbn [map StrangeAttractor.run].
    + exists st. split; [reflexivity|]. split; [exact Hv | reflexivity].
    + cbn [StrangeAttractor.react].
      destruct (handle_valid e st Hv) as (st1 & H1 & Hv1 & Ea1).
      rewrite H1. cbn [rbind].
      destruct (IH st1 Hv1) as (st' & H' & Hv' & Ea').
      exists st'. split; [exact H'|]. split; [exact Hv' | congruence].
Qed.

Lemma selection_stays_valid_witness :
  selection_valid demo /\
  exists st',
    StrangeAttractor.run
      (map StrangeAttractor.Edge
         [B1Falling 400; B2Falling 20; DinRising; B1Falling 4000; DinFalling]) demo
    = Ok st' /\
    selection_valid st' /\
    StrangeAttractor.attractors st' = StrangeAttractor.attractors demo.
Proof.
  assert (H : selection_valid demo) by (vm_compute; lia).
  split; [exact H|].
  destruct (selection_stays_valid demo H) as (_ & He). apply He.
Defined.

(** *** Running without a division error *)

Lemma nondegenerate_scaled (o : Attractor.t) :
  nondegenerate o ->
  exists sx sy sz,
    Attractor.x_scaled o = Ok sx /\
    Attractor.y_scaled o = Ok sy /\
    Attractor.z_scaled o = Ok sz.
Proof.
  intros (Hx & Hy & Hz). eexists _, _, _.
  split; [|split]; apply py_div_nonzero; assumption.
Qed.

Lemma nondegenerate_step (o : Attractor.t) :
  nondegenerate o -> nondegenerate (Attractor.step o).
Proof.
  unfold nondegenerate. rewrite step_frame. cbn. tauto.
Qed.

Lemma a_lookup (st : StrangeAttractor.t) (o : Attractor.t) :
  StrangeAttractor.a st = Ok o ->
  StrangeAttractor.attractors st !! StrangeAttractor.selected_attractor st = Some o.
Proof.
  unfold StrangeAttractor.a.
  destruct (StrangeAttractor.attractors st !! StrangeAttractor.selected_attractor st);
    [intros [= ->]; reflexivity | discriminate].
Qed.

Lemma update_total (now : Z) (st : StrangeAttractor.t) :
  selection_valid st ->
  Forall nondegenerate (StrangeAttractor.attractors st) ->
  exists st' out,
    StrangeAttractor.update now st = Ok (st', out) /\
    Forall nondegenerate (StrangeAttractor.attractors st').
Proof.
  intros Hv Hn. destruct (a_valid st Hv) as (o & Ho).
  assert (Hno : nondegenerate o)
    by (eapply Forall_lookup_1; [exact Hn | apply a_lookup; exact Ho]).
  destruct (StrangeAttractor.freeze st) eqn:Hf.
  - destruct (nondegenerate_scaled o Hno) as (sx & sy & sz & Hx & Hy & Hz).
    rewrite (update_intro now st st o sx sy sz (update_values_frozen st Hf) Ho Hx Hy Hz).
    eexists _, _. split; [reflexivity | exact Hn].
  - pose proof (update_values_running st o Hf Ho) as H1.
    set (st1 := StrangeAttractor.set_attractors _ st) in H1.
    assert (Ho1 : StrangeAttractor.a st1 = Ok (Attractor.step o)).
    { unfold StrangeAttractor.a. subst st1. cbn.
      rewrite list_lookup_insert_eq by exact Hv. reflexivity. }
    destruct (nondegenerate_scaled _ (nondegenerate_step o Hno))
      as (sx & sy & sz & Hx & Hy & Hz).
    rewrite (update_intro now st st1 _ sx sy sz H1 Ho1 Hx Hy Hz).
    eexists _, _. split; [reflexivity|]. subst st1. cbn.
    apply Forall_insert; [exact Hn | apply nondegenerate_step; exact Hno].
Qed.

Lemma react_total (i : StrangeAttractor.input) (st : StrangeAttractor.t) :
  selection_valid st ->
  Forall nondegenerate (StrangeAttractor.attractors st) ->
  exists st',
    StrangeAttractor.react i st = Ok st' /\
    Forall nondegenerate (StrangeAttractor.attractors st').
Proof.
  intros Hv Hn. destruct i as [r | e]; cbn [StrangeAttractor.react].
  - rewrite main_iter_cases. cbv zeta. rewrite sampled_frame.
    set (st0 := StrangeAttractor.set_threshold _ _).
    destruct (Qltb _ _).
    + destruct (update_total (now_update r) st0 Hv Hn) as (st' & out & H & Hn').
      rewrite H. cbn [rbind fst]. exists st'. split; [reflexivity | exact Hn'].
    + cbn [rbind fst]. exists st0. split; [reflexivity | exact Hn].
  - destruct (handle_valid e st Hv) as (st' & H & _ & Ea).
    exists st'. split; [exact H | rewrite Ea; exact Hn].
Qed.

(** *** Steps and ticks *)

Lemma main_iter_step (r : reading) (st st' : StrangeAttractor.t)
      (w : option outputs) (o : Attractor.t) :
  StrangeAttractor.freeze st = false ->
  StrangeAttractor.a st = Ok o ->
  StrangeAttractor.main_iter r st = Ok (st', w) ->
  StrangeAttractor.selected_attractor st' = StrangeAttractor.selected_attractor st /\
  StrangeAttractor.freeze st' = false /\
  StrangeAttractor.attractors st'
  = match w with
    | None => StrangeAttractor.attractors st
    | Some _ => <[StrangeAttractor.selected_attractor st := Attractor.step o]>
                  (StrangeAttractor.attractors st)
    end.
Proof.
  intros Hf Ha H.
  destruct (main_iter_frame r st st' w H) as (Es & _ & Ef & _).
  split; [exact Es|]. split; [rewrite Ef; exact Hf|].
  rewrite main_iter_cases in H. cbv zeta in H. rewrite sampled_frame in H.
  set (st0 := StrangeAttractor.set_threshold _ _) in H.
  destruct (Qltb _ _).
  - apply rbind_Ok in H as ([st2 out] & Hu & [= <- <-]). cbn [fst].
    apply update_inv in Hu as (st1 & o1 & sx & sy & sz & H1 & _ & _ & _ & _ & _ & ->).
    rewrite (update_values_running st0 o Hf Ha) in H1. injection H1 as <-.
    reflexivity.
  - injection H as <- <-. reflexivity.
Qed.

(** X9. Over any run of loop passes while the freeze flag is clear, the
    selected object advances by exactly one step for each pass that ticked,
    and no other object of the list changes. *)
Theorem one_step_per_tick :
  forall (rs : list reading) (st st' : StrangeAttractor.t)
         (ws : list (option outputs)) (o : Attractor.t),
    StrangeAttractor.freeze st = false ->
    StrangeAttractor.a st = Ok o ->
    StrangeAttractor.passes rs st = Ok (st', ws) ->
    StrangeAttractor.a st' = Ok (Nat.iter (ticks_in ws) Attractor.step o) /\
    StrangeAttractor.selected_attractor st' = StrangeAttractor.selected_attractor st /\
    (forall i : nat,
       i <> StrangeAttractor.selected_attractor st ->
       StrangeAttractor.attractors st' !! i = StrangeAttractor.attractors st !! i) /\
    length ws = length rs.
Proof.
  induction rs as [|r rs IH]; intros st st' ws o Hf Ha H; cbn [StrangeAttractor.passes] in H.
  - injection H as <- <-. repeat split. exact Ha.
  - apply rbind_Ok in H as ([st1 w] & Hm & H). cbn [fst snd] in H.
    apply rbind_Ok in H as ([st2 ws'] & Hp & [= <- <-]).
    destruct (main_iter_step r st st1 w o Hf Ha Hm) as (Es & Ef & Ea).
    assert (Hi : (StrangeAttractor.selected_attractor st
                  < length (StrangeAttractor.attractors st))%nat)
      by (eapply lookup_lt_Some; apply a_lookup; exact Ha).
    destruct w as [out|].
    + assert (Ha1 : StrangeAttractor.a st1 = Ok (Attractor.step o)).
      { unfold StrangeAttractor.a. rewrite Es, Ea.
        rewrite list_lookup_insert_eq by exact Hi. reflexivity. }
      destruct (IH st1 st2 ws' _ Ef Ha1 Hp) as (Ha2 & Es2 & Hoth & Hl).
      split; [|split; [|split]].
      * rewrite Ha2. unfold ticks_in. cbn [List.filter length].
        rewrite Nat.iter_succ_r. reflexivity.
      * congruence.
      * intros i Hne. rewrite Hoth by congruence. rewrite Ea.
        apply list_lookup_insert_ne. congruence.
      * cbn [length]. congruence.
    + assert (Ha1 : StrangeAttractor.a st1 = Ok o).
      { rewrite (a_congr st st1 Ea Es). exact Ha. }
      destruct (IH st1 st2 ws' _ Ef Ha1 Hp) as (Ha2 & Es2 & Hoth & Hl).
      split; [|split; [|split]].
      * exact Ha2.
      * congruence.
      * intros i Hne. rewrite Hoth by congruence. rewrite Ea. reflexivity.
      * cbn [length]. congruence.
Qed.

Lemma one_step_per_tick_witness :
  let rs := [ {| k1_position := 50; k2_position := 20; now_check := 150; now_update := 151 |};
              {| k1_position := 50; k2_position := 20; now_check := 160; now_update := 160 |};
              {| k1_position := 50; k2_position := 20; now_check := 300; now_update := 301 |} ] in
  exists st' ws,
    StrangeAttractor.passes rs demo = Ok (st', ws) /\
    ticks_in ws = 2%nat /\
    StrangeAttractor.a st'
    = Ok (Nat.iter (ticks_in ws) Attractor.step
            (Attractor.estimate_ranges 2 Attractor.default_Lorenz)).
Proof.
  intros rs.
  destruct (StrangeAttractor.passes rs demo) as [[st' ws]|e] eqn:E;
    [|vm_compute in E; discriminate].
  exists st', ws. split; [reflexivity|].
  split; [vm_compute in E; injection E as _ <-; reflexivity|].
  apply (one_step_per_tick rs demo st' ws _ eq_refl eq_refl E).
Defined.

(** *** Sequences of button presses *)

Lemma set_selected_attractor_own (st : StrangeAttractor.t) :
  StrangeAttractor.set_selected_attractor (StrangeAttractor.selected_attractor st) st = st.
Proof. destruct st; reflexivity. Qed.

Lemma set_range_twice (v w : Z) (st : StrangeAttractor.t) :
  StrangeAttractor.set_range v (StrangeAttractor.set_range w st)
  = StrangeAttractor.set_range v st.
Proof. reflexivity. Qed.

Lemma set_range_own (st : StrangeAttractor.t) :
  StrangeAttractor.set_range (StrangeAttractor.range st) st = st.
Proof. destruct st; reflexivity. Qed.

(** X10. Long presses of button 1 walk the selection round the list:
    after [k] of them the selection has moved [k] places forward modulo the
    length of the list and nothing else has changed, so as many long presses
    as there are objects bring the controller back to the state it was in. *)
Theorem long_presses_cycle :
  forall (helds : list Z) (st : StrangeAttractor.t),
    selection_valid st ->
    Forall (fun held => (300 < held)%Z) helds ->
    let n := length (StrangeAttractor.attractors st) in
    StrangeAttractor.run
      (map (fun held => StrangeAttractor.Edge (B1Falling held)) helds) st
    = Ok (StrangeAttractor.set_selected_attractor
            ((StrangeAttractor.selected_attractor st + length helds) mod n)%nat st) /\
    (length helds = n ->
     StrangeAttractor.run
       (map (fun held => StrangeAttractor.Edge (B1Falling held)) helds) st = Ok st).
Proof.
  intros helds st Hv Hall n.
  assert (Hrun : StrangeAttractor.run
                   (map (fun held => StrangeAttractor.Edge (B1Falling held)) helds) st
                 = Ok (StrangeAttractor.set_selected_attractor
                         ((StrangeAttractor.selected_attractor st + length helds) mod n)%nat
                         st)).
  { subst n. revert st Hv.
    induction Hall as [|held helds Hh Hall IH]; intros st Hv;
      cbn [map StrangeAttractor.run length].
    - rewrite Nat.add_0_r, Nat.mod_small by exact Hv.
      rewrite set_selected_attractor_own. reflexivity.
    - cbn [StrangeAttractor.react StrangeAttractor.handle].
      rewrite b1Pressed_long; [|exact Hh|].
      + cbn [rbind]. rewrite IH.
        * cbn. rewrite Nat.Div0.add_mod_idemp_l.
          replace (StrangeAttractor.selected_attractor st + 1 + length helds)%nat
            with (StrangeAttractor.selected_attractor st + S (length helds))%nat by lia.
          reflexivity.
        * unfold selection_valid. cbn. apply Nat.mod_upper_bound.
          unfold selection_valid in Hv. lia.
      + intros E. unfold selection_valid in Hv. rewrite E in Hv. cbn in Hv. lia. }
  split; [exact Hrun|].
  intros Hlen. rewrite Hrun, Hlen.
  rewrite <- Nat.Div0.add_mod_idemp_r, Nat.Div0.mod_same, Nat.add_0_r.
  rewrite Nat.mod_small by exact Hv.
  rewrite set_selected_attractor_own. reflexivity.
Qed.

Lemma long_presses_cycle_witness :
  StrangeAttractor.run
    (map (fun held => StrangeAttractor.Edge (B1Falling held)) [301; 500; 1000; 2000]%Z)
    demo = Ok demo.
Proof.
  assert (Hv : selection_valid demo) by (vm_compute; lia).
  destruct (long_presses_cycle [301; 500; 1000; 2000]%Z demo Hv) as (_ & H).
  - repeat constructor.
  - apply H. reflexivity.
Defined.

(** X11. Short presses saturate.  From a range of at least 1, [k] short
    presses of button 1 leave the range at [max 1 (range - k)]; from a range
    of at most MAX_OUTPUT, [k] short presses of button 2 leave it at
    [min MAX_OUTPUT (range + k)].  Nothing else changes. *)
Theorem short_presses_saturate :
  forall (helds : list Z) (st : StrangeAttractor.t),
    Forall (fun held => (held <= 300)%Z) helds ->
    let k := Z.of_nat (length helds) in
    ((1 <= StrangeAttractor.range st)%Z ->
     StrangeAttractor.run
       (map (fun held => StrangeAttractor.Edge (B1Falling held)) helds) st
     = Ok (StrangeAttractor.set_range (Z.max 1 (StrangeAttractor.range st - k)) st)) /\
    ((StrangeAttractor.range st <= MAX_OUTPUT)%Z ->
     StrangeAttractor.run
       (map (fun held => StrangeAttractor.Edge (B2Falling held)) helds) st
     = Ok (StrangeAttractor.set_range
             (Z.min MAX_OUTPUT (StrangeAttractor.range st + k)) st)).
Proof.
  intros helds st Hall. cbv zeta. split.
  - revert st. induction Hall as [|held helds Hh Hall IH]; intros st Hr;
      cbn [map StrangeAttractor.run length].
    + replace (Z.max 1 (StrangeAttractor.range st - Z.of_nat 0))
        with (StrangeAttractor.range st) by lia.
      rewrite set_range_own. reflexivity.
    + cbn [StrangeAttractor.react StrangeAttractor.handle].
      rewrite b1Pressed_short by exact Hh. cbn [rbind].
      rewrite IH by (cbn; lia). rewrite set_range_twice. cbn [StrangeAttractor.range StrangeAttractor.set_range].
      do 2 f_equal. lia.
  - revert st. induction Hall as [|held helds Hh Hall IH]; intros st Hr;
      cbn [map StrangeAttractor.run length].
    + replace (Z.min MAX_OUTPUT (StrangeAttractor.range st + Z.of_nat 0))
        with (StrangeAttractor.range st) by lia.
      rewrite set_range_own. reflexivity.
    + cbn [StrangeAttractor.react StrangeAttractor.handle].
      rewrite b2Pressed_short by exact Hh. cbn [rbind].
      rewrite IH by (cbn; lia). rewrite set_range_twice. cbn [StrangeAttractor.range StrangeAttractor.set_range].
      do 2 f_equal. unfold MAX_OUTPUT. lia.
Qed.

Lemma short_presses_saturate_witness :
  StrangeAttractor.run
    (map (fun held => StrangeAttractor.Edge (B1Falling held)) [10; 20; 30; 40; 50; 60]%Z)
    demo = Ok (StrangeAttractor.set_range 1 demo).
Proof.
  destruct (short_presses_saturate [10; 20; 30; 40; 50; 60]%Z demo) as (H & _).
  - repeat constructor; lia.
  - rewrite H; [reflexivity | vm_compute; discriminate].
Defined.

(** X12. A short press of button 1 followed by a short press of button 2
    restores the state when the range was above 1 (and at most MAX_OUTPUT);
    in the other order the state is restored when the range was below
    MAX_OUTPUT (and at least 1).  At the clamps the pair is not the identity:
    from range 1 the first order ends at 2, from MAX_OUTPUT the second ends
    one below it. *)
Theorem short_press_round_trip :
  forall (h1 h2 : Z) (st : StrangeAttractor.t),
    (h1 <= 300)%Z -> (h2 <= 300)%Z ->
    (1 <= StrangeAttractor.range st <= MAX_OUTPUT)%Z ->
    let down_up := [StrangeAttractor.Edge (B1Falling h1);
                    StrangeAttractor.Edge (B2Falling h2)] in
    let up_down := [StrangeAttractor.Edge (B2Falling h2);
                    StrangeAttractor.Edge (B1Falling h1)] in
    ((1 < StrangeAttractor.range st)%Z -> StrangeAttractor.run down_up st = Ok st) /\
    ((StrangeAttractor.range st < MAX_OUTPUT)%Z -> StrangeAttractor.run up_down st = Ok st) /\
    (StrangeAttractor.range st = 1%Z ->
     StrangeAttractor.run down_up st = Ok (StrangeAttractor.set_range 2 st)) /\
    (StrangeAttractor.range st = MAX_OUTPUT ->
     StrangeAttractor.run up_down st
     = Ok (StrangeAttractor.set_range (MAX_OUTPUT - 1) st)).
Proof.
  intros h1 h2 st H1 H2 Hr. cbv zeta. cbn [StrangeAttractor.run StrangeAttractor.react
    StrangeAttractor.handle].
  rewrite (b1Pressed_short h1 st H1), (b2Pressed_short h2 st H2). cbn [rbind].
  rewrite b1Pressed_short, b2Pressed_short by assumption. cbn [rbind].
  unfold MAX_OUTPUT in *.
  destruct st as [at0 sel cp per rg th fr sd g4 g5 g6]. cbn in *.
  unfold StrangeAttractor.set_range. cbn.
  repeat split; intros H; do 2 f_equal; lia.
Qed.

Lemma short_press_round_trip_witness :
  StrangeAttractor.run
    [StrangeAttractor.Edge (B1Falling 100); StrangeAttractor.Edge (B2Falling 200)] demo
  = Ok demo.
Proof.
  destruct (short_press_round_trip 100 200 demo) as (H & _).
  - lia.
  - lia.
  - vm_compute. split; discriminate.
  - apply H. vm_compute. reflexivity.
Defined.

(** X13. Button 2.  A release after more than 300 ms toggles the display
    mode and changes nothing else, so two long presses restore the state; a
    release after 300 ms or less raises the range by 1, but not above
    MAX_OUTPUT.  Neither raises an exception. *)
Theorem b2Pressed_classification :
  forall (held : Z) (st : StrangeAttractor.t),
    ((held <= 300)%Z ->
     StrangeAttractor.b2Pressed held st
     = Ok (StrangeAttractor.set_range
             (Z.min MAX_OUTPUT (StrangeAttractor.range st + 1)) st)) /\
    ((300 < held)%Z ->
     StrangeAttractor.b2Pressed held st
     = Ok (StrangeAttractor.set_show_detail (negb (StrangeAttractor.show_detail st)) st) /\
     forall held' : Z,
       (300 < held')%Z ->
       StrangeAttractor.run
         [StrangeAttractor.Edge (B2Falling held); StrangeAttractor.Edge (B2Falling held')] st
       = Ok st).
Proof.
  intros held st. split; [apply b2Pressed_short|].
  intros H. split; [apply b2Pressed_long; exact H|].
  intros held' H'. cbn [StrangeAttractor.run StrangeAttractor.react StrangeAttractor.handle].
  rewrite (b2Pressed_long held st H). cbn [rbind].
  rewrite b2Pressed_long by exact H'. cbn [rbind].
  destruct st as [at0 sel cp per rg th fr sd g4 g5 g6]. cbn.
  unfold StrangeAttractor.set_show_detail. cbn. rewrite negb_involutive. reflexivity.
Qed.

Lemma b2Pressed_classification_witness :
  StrangeAttractor.b2Pressed 300 (StrangeAttractor.set_range 3 demo)
  = Ok (StrangeAttractor.set_range 4 demo) /\
  StrangeAttractor.run
    [StrangeAttractor.Edge (B2Falling 301); StrangeAttractor.Edge (B2Falling 999)] demo
  = Ok demo.
Proof.
  split.
  - destruct (b2Pressed_classification 300 (StrangeAttractor.set_range 3 demo)) as (H & _).
    rewrite H; [reflexivity | lia].
  - destruct (b2Pressed_classification 301 demo) as (_ & H).
    destruct H as (_ & H); [lia|]. apply H. lia.
Defined.

(** *** Timing *)

(** X14. A pass that ticks stores the clock reading taken by [update] as
    the checkpoint; the next pass does not tick, steps nothing and writes
    nothing as long as the clock has not advanced beyond that reading by more
    than the period then sampled. *)
Theorem no_tick_within_period :
  forall (r1 r2 : reading) (st st1 : StrangeAttractor.t) (out : outputs),
    StrangeAttractor.main_iter r1 st = Ok (st1, Some out) ->
    (inject_Z (now_check r2 - now_update r1)
     <= StrangeAttractor.period (StrangeAttractor.update_speed (k1_position r2) st1))%Q ->
    StrangeAttractor.checkpoint st1 = now_update r1 /\
    exists st2,
      StrangeAttractor.main_iter r2 st1 = Ok (st2, None) /\
      StrangeAttractor.attractors st2 = StrangeAttractor.attractors st1 /\
      StrangeAttractor.checkpoint st2 = now_update r1.
Proof.
  intros r1 r2 st st1 out H1 Hle.
  assert (Hc : StrangeAttractor.checkpoint st1 = now_update r1).
  { rewrite main_iter_cases in H1. cbv zeta in H1.
    destruct (Qltb _ _); [|discriminate].
    apply rbind_Ok in H1 as ([st' out'] & Hu & [= <- _]).
    apply update_frame in Hu as (_ & Hcp & _). exact Hcp. }
  split; [exact Hc|].
  rewrite main_iter_cases. cbv zeta. rewrite sampled_frame.
  set (st0 := StrangeAttractor.set_threshold _ _).
  assert (E : Qltb (StrangeAttractor.period st0)
                (inject_Z (ticks_diff (now_check r2) (StrangeAttractor.checkpoint st1)))
              = false).
  { apply Qltb_ge. rewrite Hc. exact Hle. }
  rewrite E. exists st0. split; [reflexivity|]. split; [reflexivity | exact Hc].
Qed.

Lemma no_tick_within_period_witness :
  exists st1 out st2,
    StrangeAttractor.main_iter
      {| k1_position := 50; k2_position := 20; now_check := 150; now_update := 151 |} demo
    = Ok (st1, Some out) /\
    StrangeAttractor.main_iter
      {| k1_position := 50; k2_position := 20; now_check := 251; now_update := 252 |} st1
    = Ok (st2, None).
Proof.
  destruct (StrangeAttractor.main_iter
              {| k1_position := 50; k2_position := 20; now_check := 150; now_update := 151 |}
              demo) as [[st1 [out|]]|e] eqn:E;
    [|vm_compute in E; discriminate..].
  destruct (no_tick_within_period _
              {| k1_position := 50; k2_position := 20; now_check := 251; now_update := 252 |}
              _ _ _ E) as (_ & st2 & H2 & _).
  - rewrite update_speed_period. vm_compute. discriminate.
  - exists st1, out, st2. split; [reflexivity | exact H2].
Defined.



(** *** The outputs of a tick *)

Lemma update_values_set_threshold (t : Z) (st st1 : StrangeAttractor.t) :
  StrangeAttractor.update_values st = Ok st1 ->
  StrangeAttractor.update_values (StrangeAttractor.set_threshold t st)
  = Ok (StrangeAttractor.set_threshold t st1).
Proof.
  intros H. apply update_values_cases in H as [(Hf & ->) | (Hf & o & Ho & ->)].
  - apply update_values_frozen. exact Hf.
  - rewrite (update_values_running (StrangeAttractor.set_threshold t st) o Hf Ho).
    reflexivity.
Qed.

(** X17. The threshold only bears on gates 5 and 6.  A tick that returns
    also returns under any other threshold, steps the same and writes the same
    three voltages and the same gate 4; and a gate 5 or 6 that is on under a
    higher threshold is on under the lower one. *)
Theorem threshold_only_lowers_gates :
  forall (now : Z) (st st' : StrangeAttractor.t) (out : outputs) (t : Z),
    StrangeAttractor.update now st = Ok (st', out) ->
    exists st'' out',
      StrangeAttractor.update now (StrangeAttractor.set_threshold t st) = Ok (st'', out') /\
      StrangeAttractor.attractors st'' = StrangeAttractor.attractors st' /\
      cv1 out' = cv1 out /\ cv2 out' = cv2 out /\ cv3 out' = cv3 out /\
      cv4 out' = cv4 out /\
      ((StrangeAttractor.threshold st <= t)%Z ->
       (cv5 out' = true -> cv5 out = true) /\
       (cv6 out' = true -> cv6 out = true)).
Proof.
  intros now st st' out t H.
  apply update_inv in H as (st1 & o & sx & sy & sz & H1 & Ha & Hx & Hy & Hz & -> & ->).
  pose proof (update_values_set_threshold t st st1 H1) as H1'.
  assert (Ha' : StrangeAttractor.a (StrangeAttractor.set_threshold t st1) = Ok o)
    by exact Ha.
  rewrite (update_intro now _ _ o sx sy sz H1' Ha' Hx Hy Hz).
  eexists _, _. split; [reflexivity|].
  cbn. do 5 (split; [reflexivity|]).
  intros Hle. rewrite Zle_Qle in Hle.
  split; intros Hg; apply Qltb_lt in Hg; apply Qltb_lt; lra.
Qed.

Lemma threshold_only_lowers_gates_witness :
  exists st' out st'' out',
    StrangeAttractor.update 151 demo = Ok (st', out) /\
    StrangeAttractor.update 151 (StrangeAttractor.set_threshold 40 demo) = Ok (st'', out') /\
    cv1 out' = cv1 out /\ cv4 out' = cv4 out.
Proof.
  destruct (StrangeAttractor.update 151 demo) as [[st' out]|e] eqn:E;
    [|vm_compute in E; discriminate].
  destruct (threshold_only_lowers_gates 151 demo st' out 40 E)
    as (st'' & out' & H & _ & V1 & _ & _ & G4 & _).
  exists st', out, st'', out'.
  split; [reflexivity|]. split; [exact H|]. split; [exact V1 | exact G4].
Defined.

(** X18. Gate 4 follows the parity of the integer part of the scaled x:
    after a tick it is on exactly when the scaled x of the selected object
    lies in [2n, 2n + 1) for some integer n. *)
Theorem gate4_parity_bands :
  forall (now : Z) (st st' : StrangeAttractor.t) (out : outputs)
         (o : Attractor.t) (sx : Q),
    StrangeAttractor.update now st = Ok (st', out) ->
    StrangeAttractor.a st' = Ok o ->
    Attractor.x_scaled o = Ok sx ->
    StrangeAttractor.gate4 st' = Some (cv4 out) /\
    (cv4 out = true <->
     exists n : Z, (inject_Z (2 * n) <= sx)%Q /\ (sx < inject_Z (2 * n + 1))%Q).
Proof.
  intros now st st' out o sx H Ha Hx.
  apply update_inv in H as (st1 & o1 & sx1 & sy & sz & H1 & Ha1 & Hx1 & Hy & Hz & -> & ->).
  assert (Eo : o1 = o).
  { change (StrangeAttractor.a st1 = Ok o) in Ha. congruence. }
  subst o1. assert (Es : sx1 = sx) by congruence. subst sx1.
  split; [reflexivity|].
  cbn [cv4 outputs_of]. rewrite Z.eqb_eq.
  pose proof (Qfloor_le sx) as Hlo. pose proof (Qlt_floor sx) as Hhi.
  split.
  - intros Hm. exists (Qfloor sx / 2)%Z.
    assert (E : (Qfloor sx = 2 * (Qfloor sx / 2))%Z).
    { pose proof (Z.div_mod (Qfloor sx) 2 ltac:(discriminate)) as D.
      rewrite Hm, Z.add_0_r in D. exact D. }
    rewrite <- E. split; assumption.
  - intros (n & Hn0 & Hn1).
    assert (E : Qfloor sx = (2 * n)%Z).
    { apply Z.le_antisymm.
      - assert (Hlt : (inject_Z (Qfloor sx) < inject_Z (2 * n + 1))%Q)
          by (eapply Qle_lt_trans; eassumption).
        rewrite <- Zlt_Qlt in Hlt. lia.
      - apply Qfloor_resp_le in Hn0. rewrite Qfloor_Z in Hn0. exact Hn0. }
    rewrite E, Z.mul_comm. apply Z.mod_mul. discriminate.
Qed.

Lemma gate4_parity_bands_witness :
  exists st' out,
    StrangeAttractor.update 151 demo = Ok (st', out) /\
    StrangeAttractor.gate4 st' = Some (cv4 out).
Proof.
  destruct (StrangeAttractor.update 151 demo) as [[st' out]|e] eqn:E;
    [|vm_compute in E; discriminate].
  destruct (StrangeAttractor.a st') as [o|e] eqn:Ea;
    [|vm_compute in E; injection E as <- _; vm_compute in Ea; discriminate].
  destruct (Attractor.x_scaled o) as [sx|e] eqn:Ex;
    [|vm_compute in E; injection E as <- _; vm_compute in Ea; injection Ea as <-;
      vm_compute in Ex; discriminate].
  destruct (gate4_parity_bands 151 demo st' out o sx E Ea Ex) as (G & _).
  exists st', out. split; [reflexivity | exact G].
Defined.

(** *** The program as shipped *)

Lemma nondegenerate_from_shorter (n m : nat) (o : Attractor.t) :
  (n <= m)%nat ->
  (0 < Attractor.x_range (Attractor.estimate_ranges n o))%Q ->
  (0 < Attractor.y_range (Attractor.estimate_ranges n o))%Q ->
  (0 < Attractor.z_range (Attractor.estimate_ranges n o))%Q ->
  nondegenerate (Attractor.estimate_ranges m o).
Proof.
  intros Hle Hx Hy Hz.
  destruct (estimate_ranges_monotone n m o Hle) as (H1 & H2 & H3 & H4 & H5 & H6).
  cbv zeta in H1, H2, H3, H4, H5, H6.
  destruct (estimate_ranges_fields n o)
    as (_ & _ & _ & _ & _ & _ & _ & _ & _ & _ & _ & _ & _ & Nx & Ny & Nz).
  destruct (estimate_ranges_fields m o)
    as (_ & _ & _ & _ & _ & _ & _ & _ & _ & _ & _ & _ & _ & Mx & My & Mz).
  cbv zeta in Nx, Ny, Nz, Mx, My, Mz.
  rewrite Nx in Hx. rewrite Ny in Hy. rewrite Nz in Hz.
  unfold nondegenerate. rewrite Mx, My, Mz.
  repeat split; intros E; lra.
Qed.

(** After two or more calibration steps none of the four default objects
    has a degenerate axis. *)
Lemma get_attractors_nondegenerate (steps : nat) :
  (2 <= steps)%nat ->
  Forall nondegenerate (map (Attractor.estimate_ranges steps) get_attractors).
Proof.
  intros H. unfold get_attractors. cbn [map].
  repeat (apply List.Forall_cons;
          [apply (nondegenerate_from_shorter 2 steps);
           [exact H | vm_compute; reflexivity ..]|]).
  apply List.Forall_nil.
Qed.

(** X19. The program as shipped never raises.  For the four objects of
    [get_attractors], any seed of the random choice and two or more
    calibration steps (the default is 100000), the constructor returns a
    controller, and every sequence of loop passes and edges runs from it to
    its end without an exception. *)
Theorem shipped_program_never_raises :
  (forall (steps seed : nat) (ins : list StrangeAttractor.input),
     (2 <= steps)%nat ->
     exists st0 st',
       StrangeAttractor.init_with steps seed get_attractors = Ok st0 /\
       StrangeAttractor.run ins st0 = Ok st') /\
  (forall (seed : nat) (ins : list StrangeAttractor.input),
     exists st0 st',
       StrangeAttractor.init seed get_attractors = Ok st0 /\
       StrangeAttractor.run ins st0 = Ok st').
Proof.
  assert (Hrun : forall ins st,
             selection_valid st ->
             Forall nondegenerate (StrangeAttractor.attractors st) ->
             exists st', StrangeAttractor.run ins st = Ok st').
  { induction ins as [|i ins IH]; intros st Hv Hn; cbn [StrangeAttractor.run].
    - exists st. reflexivity.
    - destruct (react_total i st Hv Hn) as (st1 & H1 & Hn1).
      destruct (react_valid i st st1 Hv H1) as (Hv1 & _).
      rewrite H1. cbn [rbind]. apply IH; assumption. }
  assert (Hgen : forall steps seed ins,
             (2 <= steps)%nat ->
             exists st0 st',
               StrangeAttractor.init_with steps seed get_attractors = Ok st0 /\
               StrangeAttractor.run ins st0 = Ok st').
  { intros steps seed ins Hs.
    destruct (init_with_ok steps seed get_attractors) as (st0 & H0 & Ea & Es & _);
      [discriminate|].
    assert (Hv : selection_valid st0).
    { unfold selection_valid. rewrite Es, Ea, length_map.
      apply Nat.mod_upper_bound. discriminate. }
    assert (Hn : Forall nondegenerate (StrangeAttractor.attractors st0))
      by (rewrite Ea; apply get_attractors_nondegenerate; exact Hs).
    destruct (Hrun ins st0 Hv Hn) as (st' & H').
    exists st0, st'. split; assumption. }
  split; [exact Hgen|].
  intros seed ins. apply Hgen. unfold StrangeAttractor.default_steps. lia.
Qed.

Lemma shipped_program_never_raises_witness :
  exists st0 st',
    StrangeAttractor.init_with 3 7 get_attractors = Ok st0 /\
    StrangeAttractor.run
      [StrangeAttractor.Pass
         {| k1_position := 0; k2_position := 40; now_check := 2000; now_update := 2001 |};
       StrangeAttractor.Edge (B1Falling 5000);
       StrangeAttractor.Edge (B2Falling 12)] st0 = Ok st'.
Proof.
  destruct shipped_program_never_raises as (H & _).
  apply H. lia.
Defined.

(** *** Freeze against every input *)

Lemma react_frozen (i : StrangeAttractor.input) (st st' : StrangeAttractor.t) :
  StrangeAttractor.freeze st = true ->
  i <> StrangeAttractor.Edge DinFalling ->
  StrangeAttractor.react i st = Ok st' ->
  StrangeAttractor.freeze st' = true /\
  StrangeAttractor.attractors st' = StrangeAttractor.attractors st.
Proof.
  intros Hf Hne. destruct i as [r | e]; cbn [StrangeAttractor.react].
  - intros H. apply rbind_Ok in H as ([st1 w] & Hm & [= <-]). cbn [fst].
    destruct (main_iter_frame r st st1 w Hm) as (_ & _ & Ef & _).
    split; [rewrite Ef; exact Hf|].
    rewrite main_iter_cases in Hm. cbv zeta in Hm. rewrite sampled_frame in Hm.
    set (st0 := StrangeAttractor.set_threshold _ _) in Hm.
    destruct (Qltb _ _).
    + apply rbind_Ok in Hm as ([st2 out] & Hu & [= <- _]).
      apply update_inv in Hu as (s1 & o & sx & sy & sz & H1 & _ & _ & _ & _ & _ & ->).
      rewrite (update_values_frozen st0 Hf) in H1. injection H1 as <-. reflexivity.
    + injection Hm as <- _. reflexivity.
  - destruct e as [held | held | |]; cbn [StrangeAttractor.handle].
    + destruct (Z_le_gt_dec held 300) as [C | C].
      * rewrite b1Pressed_short by exact C. intros [= <-]. split; [exact Hf | reflexivity].
      * unfold StrangeAttractor.b1Pressed.
        destruct (Z.ltb_spec 300 held) as [_ | C']; [|lia].
        destruct (length (StrangeAttractor.attractors st)); [discriminate|].
        intros H. apply rbind_Ok in H as (c & _ & [= <-]).
        split; [exact Hf | reflexivity].
    + destruct (b2Pressed_valid held st) as (s1 & H1 & _ & Ea).
      destruct (Z_le_gt_dec held 300) as [C | C].
      * rewrite b2Pressed_short by exact C. intros [= <-]. split; [exact Hf | reflexivity].
      * rewrite b2Pressed_long by lia. intros [= <-]. split; [exact Hf | reflexivity].
    + intros [= <-]. split; reflexivity.
    + congruence.
Qed.

(** X20. While the freeze flag is set, nothing moves an object: through
    any sequence of loop passes, knob changes and button releases that
    contains no falling edge of the digital input, the flag stays set and the
    list of objects is unchanged. *)
Theorem frozen_against_all_inputs :
  forall (ins : list StrangeAttractor.input) (st st' : StrangeAttractor.t),
    StrangeAttractor.freeze st = true ->
    Forall (fun i => i <> StrangeAttractor.Edge DinFalling) ins ->
    StrangeAttractor.run ins st = Ok st' ->
    StrangeAttractor.freeze st' = true /\
    StrangeAttractor.attractors st' = StrangeAttractor.attractors st.
Proof.
  induction ins as [|i ins IH]; intros st st' Hf Hall H; cbn [StrangeAttractor.run] in H.
  - injection H as <-. split; [exact Hf | reflexivity].
  - inversion Hall as [|? ? Hi Hrest]; subst.
    apply rbind_Ok in H as (st1 & H1 & H).
    destruct (react_frozen i st st1 Hf Hi H1) as (Hf1 & Ea1).
    destruct (IH st1 st' Hf1 Hrest H) as (Hf' & Ea').
    split; [exact Hf' | congruence].
Qed.

Lemma frozen_against_all_inputs_witness :
  exists st',
    StrangeAttractor.run
      [StrangeAttractor.Pass
         {| k1_position := 99; k2_position := 3; now_check := 500; now_update := 501 |};
       StrangeAttractor.Edge (B1Falling 800);
       StrangeAttractor.Edge DinRising;
       StrangeAttractor.Pass
         {| k1_position := 10; k2_position := 30; now_check := 5000; now_update := 5001 |}]
      (StrangeAttractor.dinTrigger demo) = Ok st' /\
    StrangeAttractor.attractors st' = StrangeAttractor.attractors demo.
Proof.
  set (ins := [StrangeAttractor.Pass _; _; _; _]).
  destruct (StrangeAttractor.run ins (StrangeAttractor.dinTrigger demo)) as [st'|e] eqn:E;
    [|vm_compute in E; discriminate].
  exists st'. split; [reflexivity|].
  apply (frozen_against_all_inputs ins (StrangeAttractor.dinTrigger demo) st' eq_refl);
    [|exact E].
  repeat (apply List.Forall_cons; [discriminate|]). apply List.Forall_nil.
Defined.
